(** * nlp_architect.utils.io: argument and path validators

    A shallow embedding of the validators of [nlp_architect/utils/io.py]
    ([validate], [validate_existing_filepath], [validate_existing_directory],
    [validate_parent_exists], [sanitize_path], [validate_proxy_path]) and of
    the pieces of the Python runtime they call ([isinstance], [str] methods,
    [posixpath], [re.match]), followed by the properties of the validators.

    Conventions.
    - A Python [str] is a Rocq [string]; a character is read as the code
      point of the same number (U+0000 to U+00FF).
    - A Python [int] is a [Z].  The values are [None], booleans, integers,
      strings and lists; the bounds of a rule are integers or [None].
    - A call that may raise returns a [result]: [Ok v] for a normal return,
      [Raise e] for an exception [e] that leaves the function.
    - [os.path] is [posixpath]; the file system is a record of the current
      directory and the two existence tests the module uses. *)

From Stdlib Require Import ZArith List String Ascii Bool Lia DecimalString.
Import ListNotations.

Local Open Scope list_scope.
Local Open Scope string_scope.

(** ** Python values, types and exceptions *)

Module Py.

(** The built-in types the validators are called with.  [ty_object] is the
    root of the hierarchy and [ty_bool] is a subclass of [ty_int]. *)
Inductive pytype : Type :=
| ty_NoneType
| ty_bool
| ty_int
| ty_str
| ty_list
| ty_object.

(** The values a command line hands to a validator. *)
#[warning="-register-all"] Inductive pyval : Type :=
| VNone
| VBool (b : bool)
| VInt (n : Z)
| VStr (s : string)
| VList (l : list pyval).

Definition pytype_eqb (a b : pytype) : bool :=
  match a, b with
  | ty_NoneType, ty_NoneType | ty_bool, ty_bool | ty_int, ty_int
  | ty_str, ty_str | ty_list, ty_list | ty_object, ty_object => true
  | _, _ => false
  end.

(** [type(v)] *)
Definition type_of (v : pyval) : pytype :=
  match v with
  | VNone => ty_NoneType
  | VBool _ => ty_bool
  | VInt _ => ty_int
  | VStr _ => ty_str
  | VList _ => ty_list
  end.

(** [t.__name__] *)
Definition type_name (t : pytype) : string :=
  match t with
  | ty_NoneType => "NoneType"
  | ty_bool => "bool"
  | ty_int => "int"
  | ty_str => "str"
  | ty_list => "list"
  | ty_object => "object"
  end.

(** [issubclass(a, b)] for a single class [b]: the method resolution order
    of [bool] is [bool, int, object]; every other type derives from
    [object] only. *)
Definition issubclass (a b : pytype) : bool :=
  pytype_eqb a b
  || pytype_eqb b ty_object
  || (pytype_eqb a ty_bool && pytype_eqb b ty_int).

(** [isinstance(v, classes)] for a tuple of classes. *)
Definition isinstance (v : pyval) (classes : list pytype) : bool :=
  existsb (issubclass (type_of v)) classes.

(** [v is None] *)
Definition is_None (v : pyval) : bool :=
  match v with VNone => true | _ => false end.

(** [hasattr(v, '__len__')] *)
Definition has_len (v : pyval) : bool :=
  match v with
  | VStr _ | VList _ => true
  | VNone | VBool _ | VInt _ => false
  end.

(** [len(v)], for the values that have a [__len__]. *)
Definition len (v : pyval) : Z :=
  match v with
  | VStr s => Z.of_nat (String.length s)
  | VList l => Z.of_nat (List.length l)
  | VNone | VBool _ | VInt _ => 0
  end.

(** The integer a number compares as: [True] is 1 and [False] is 0. *)
Definition int_value (v : pyval) : Z :=
  match v with
  | VInt n => n
  | VBool b => Z.b2z b
  | VNone | VStr _ | VList _ => 0
  end.

(** [str(n)] for an [int]. *)
Definition str_of_int (n : Z) : string :=
  NilZero.string_of_int (Z.to_int n).

(** [bool(s)] for a [str]: the empty string is false. *)
Definition truthy_str (s : string) : bool :=
  match s with EmptyString => false | String _ _ => true end.

Inductive exn : Type :=
| TypeError (msg : string)
| ValueError (msg : string)
| AssertionError.

Inductive result (A : Type) : Type :=
| Ok (a : A)
| Raise (e : exn).
Arguments Ok {A} a.
Arguments Raise {A} e.

Definition bind {A B : Type} (c : result A) (k : A -> result B) : result B :=
  match c with
  | Ok a => k a
  | Raise e => Raise e
  end.

Definition is_Ok {A : Type} (c : result A) : bool :=
  match c with Ok _ => true | Raise _ => false end.

End Py.

Import Py.

Declare Scope py_scope.
Delimit Scope py_scope with py.
Notation "x <- c ;; k" := (bind c (fun x => k))
  (at level 61, c at next level, right associativity) : py_scope.
Notation "c ;; k" := (bind c (fun _ => k))
  (at level 61, right associativity) : py_scope.
Local Open Scope py_scope.

(** ** [validate] *)

Module Validate.

(** The second item of a rule: one class, or a tuple of classes. *)
Inductive classinfo : Type :=
| Single (t : pytype)
| Tuple (ts : list pytype).

(** A rule is one of the tuples [validate] documents: [(arg, class)],
    [(arg, class, min_val, max_val)], and the five-item form with the
    argument's name that [check_size] builds.  A bound is an [int] or
    [None]. *)
Inductive rule : Type :=
| Rule2 (arg : pyval) (cls : classinfo)
| Rule4 (arg : pyval) (cls : classinfo) (min_val max_val : option Z)
| Rule5 (arg : pyval) (cls : classinfo) (min_val max_val : option Z)
        (name : string).

(** [len(arg)] *)
Definition rule_len (r : rule) : nat :=
  match r with
  | Rule2 _ _ => 2
  | Rule4 _ _ _ _ => 4
  | Rule5 _ _ _ _ _ => 5
  end.

(** [arg[0]] *)
Definition item0 (r : rule) : pyval :=
  match r with
  | Rule2 v _ | Rule4 v _ _ _ | Rule5 v _ _ _ _ => v
  end.

(** [arg[1]] *)
Definition item1 (r : rule) : classinfo :=
  match r with
  | Rule2 _ c | Rule4 _ c _ _ | Rule5 _ c _ _ _ => c
  end.

(** [arg[2]], read only when [len(arg) >= 4]. *)
Definition item2 (r : rule) : option Z :=
  match r with
  | Rule2 _ _ => None
  | Rule4 _ _ lo _ | Rule5 _ _ lo _ _ => lo
  end.

(** [arg[3]], read only when [len(arg) >= 4]. *)
Definition item3 (r : rule) : option Z :=
  match r with
  | Rule2 _ _ => None
  | Rule4 _ _ _ hi | Rule5 _ _ _ hi _ => hi
  end.

(** [arg[4]], read only when [len(arg) == 5]. *)
Definition item4 (r : rule) : string :=
  match r with
  | Rule2 _ _ | Rule4 _ _ _ _ => ""
  | Rule5 _ _ _ _ n => n
  end.

(** [(arg[1],) if isinstance(arg[1], type) else arg[1]] *)
Definition accepted (c : classinfo) : list pytype :=
  match c with
  | Single t => [t]
  | Tuple ts => ts
  end.

Definition type_error_message (arg_type : list pytype) : string :=
  "Expected type " ++ String.concat " or " (map type_name arg_type).

Definition min_error_message (val name : string) (arg_min : Z) : string :=
  val ++ " " ++ name ++ " must be greater or equal to " ++ str_of_int arg_min.

Definition max_error_message (val name : string) (arg_max : Z) : string :=
  val ++ " " ++ name ++ " must be less than " ++ str_of_int arg_max.

(** The body of the loop of [validate], for one rule. *)
Definition validate_rule (arg : rule) : result unit :=
  let arg_val := item0 arg in
  let arg_type := accepted (item1 arg) in
  if negb (isinstance arg_val arg_type) then
    Raise (TypeError (type_error_message arg_type))
  else if negb (is_None arg_val) && (4 <=? rule_len arg)%nat then
    let name := if (rule_len arg =? 5)%nat then "of " ++ item4 arg else "" in
    let arg_min := item2 arg in
    let arg_max := item3 arg in
    let '(val, num) :=
      if has_len arg_val then ("Length", len arg_val)
      else ("Value", int_value arg_val) in
    (match arg_min with
     | Some lo =>
         if (num <? lo)%Z then
           Raise (ValueError (min_error_message val name lo))
         else Ok tt
     | None => Ok tt
     end) ;;
    (match arg_max with
     | Some hi =>
         if (num >=? hi)%Z then
           Raise (ValueError (max_error_message val name hi))
         else Ok tt
     | None => Ok tt
     end)
  else Ok tt.

(** [validate], called with the rules as its arguments: the rules are
    checked in order and the first exception leaves the function. *)
Fixpoint validate (args : list rule) : result unit :=
  match args with
  | [] => Ok tt
  | arg :: rest => validate_rule arg ;; validate rest
  end.

End Validate.

Import Validate.

(** ** [str] methods *)

Module Str.

(** [s.startswith(p)] *)
Fixpoint startswith (s p : string) {struct p} : bool :=
  match p with
  | EmptyString => true
  | String a p' =>
      match s with
      | EmptyString => false
      | String b s' => Ascii.eqb b a && startswith s' p'
      end
  end.

(** [s.endswith(c)] for a one-character [c]. *)
Fixpoint endswith (s : string) (c : ascii) : bool :=
  match s with
  | EmptyString => false
  | String x EmptyString => Ascii.eqb x c
  | String _ s' => endswith s' c
  end.

(** [c * n] for a one-character [c]. *)
Fixpoint repeat (c : ascii) (n : nat) : string :=
  match n with
  | O => EmptyString
  | S n' => String c (repeat c n')
  end.

(** [s.split(c)] for a one-character separator: the pieces between the
    occurrences of [c]; never an empty list. *)
Fixpoint split (c : ascii) (s : string) : list string :=
  match s with
  | EmptyString => [EmptyString]
  | String x s' =>
      if Ascii.eqb x c then EmptyString :: split c s'
      else match split c s' with
           | piece :: pieces => String x piece :: pieces
           | [] => [String x EmptyString]
           end
  end.

(** [c.join(pieces)] *)
Definition join (c : ascii) (pieces : list string) : string :=
  String.concat (String c EmptyString) pieces.

(** [s.lstrip(c)] for a one-character [c]. *)
Fixpoint lstrip (c : ascii) (s : string) : string :=
  match s with
  | EmptyString => EmptyString
  | String x s' => if Ascii.eqb x c then lstrip c s' else s
  end.

(** [s.rstrip(c)] for a one-character [c]. *)
Fixpoint rstrip (c : ascii) (s : string) : string :=
  match s with
  | EmptyString => EmptyString
  | String x s' =>
      match rstrip c s' with
      | EmptyString => if Ascii.eqb x c then EmptyString else String x EmptyString
      | rest => String x rest
      end
  end.

(** [s.rfind(c)], counting from [i] for the first character of [s]: the
    index of the last occurrence of [c], or [-1]. *)
Fixpoint rfind_from (c : ascii) (s : string) (i : Z) : Z :=
  match s with
  | EmptyString => (-1)%Z
  | String x s' =>
      let later := rfind_from c s' (i + 1)%Z in
      if (0 <=? later)%Z then later
      else if Ascii.eqb x c then i else (-1)%Z
  end.

Definition rfind (s : string) (c : ascii) : Z := rfind_from c s 0%Z.

(** [s[:i]] for [i >= 0]. *)
Definition slice_to (s : string) (i : Z) : string :=
  String.substring 0 (Z.to_nat i) s.

End Str.

(** ** [posixpath] *)

Module Posixpath.

Definition sep : ascii := "/"%char.
Definition dot : string := ".".
Definition dotdot : string := "..".

(** [isabs(s)] *)
Definition isabs (s : string) : bool := Str.startswith s "/".

(** [join(a, b)] *)
Definition join (a b : string) : string :=
  if Str.startswith b "/" then b
  else if negb (truthy_str a) || Str.endswith a sep then a ++ b
  else a ++ "/" ++ b.

(** The number [normpath] keeps in [initial_slashes]: POSIX allows one or
    two initial slashes and treats three or more as one. *)
Definition initial_slashes (path : string) : nat :=
  if Str.startswith path "/" then
    if Str.startswith path "//" && negb (Str.startswith path "///") then 2
    else 1
  else 0.

Definition is_empty (comps : list string) : bool :=
  match comps with [] => true | _ :: _ => false end.

(** One turn of the loop of [normpath] over the components. *)
Definition norm_step (slashes : nat) (new_comps : list string)
    (comp : string) : list string :=
  if (comp =? "") || (comp =? dot) then new_comps
  else if negb (comp =? dotdot)
          || ((slashes =? 0)%nat && is_empty new_comps)
          || (negb (is_empty new_comps)
              && (List.last new_comps "" =? dotdot))
  then (new_comps ++ [comp])%list
  else if negb (is_empty new_comps) then List.removelast new_comps
  else new_comps.

(** [normpath(path)] *)
Definition normpath (path : string) : string :=
  if path =? "" then dot
  else
    let slashes := initial_slashes path in
    let comps := Str.split sep path in
    let new_comps := fold_left (norm_step slashes) comps [] in
    let path := Str.join sep new_comps in
    let path :=
      if (slashes =? 0)%nat then path else Str.repeat sep slashes ++ path in
    if truthy_str path then path else dot.

(** [dirname(p)] *)
Definition dirname (p : string) : string :=
  let i := (Str.rfind p sep + 1)%Z in
  let head := Str.slice_to p i in
  if truthy_str head
     && negb (head =? Str.repeat sep (String.length head))
  then Str.rstrip sep head
  else head.

End Posixpath.

(** ** The file system and the path validators *)

Record filesystem : Type := {
  cwd : string;              (* os.getcwd() *)
  isfile : string -> bool;   (* os.path.isfile *)
  isdir : string -> bool     (* os.path.isdir *)
}.

(** [os.fspath(v)]: a [str] is returned as it is, the other values are not
    paths. *)
Definition fspath (v : pyval) : result string :=
  match v with
  | VStr s => Ok s
  | _ => Raise (TypeError ("expected str, bytes or os.PathLike object, not "
                           ++ type_name (type_of v)))
  end.

(** [os.path.abspath] on a [str]. *)
Definition abspath (fs : filesystem) (path : string) : string :=
  Posixpath.normpath
    (if Posixpath.isabs path then path else Posixpath.join (cwd fs) path).

(** "Validates an input argument is a path string to an existing file." *)
Definition validate_existing_filepath (fs : filesystem) (arg : pyval)
  : result pyval :=
  validate [Rule4 arg (Single ty_str) (Some 0%Z) (Some 255%Z)] ;;
  p <- fspath arg ;;
  if negb (isfile fs p) then Raise (ValueError (p ++ " does not exist."))
  else Ok arg.

(** "Validates an input argument is a path string to an existing
    directory."  The argument is replaced by its absolute path first. *)
Definition validate_existing_directory (fs : filesystem) (arg : pyval)
  : result string :=
  p <- fspath arg ;;
  let arg := abspath fs p in
  validate [Rule4 (VStr arg) (Single ty_str) (Some 0%Z) (Some 255%Z)] ;;
  if negb (isdir fs arg) then Raise (ValueError (arg ++ " does not exist"))
  else Ok arg.

(** "Validates an input argument is a path string, and its parent directory
    exists."  The result is the absolute path, or [None] when
    [validate_existing_directory] returns an empty string. *)
Definition validate_parent_exists (fs : filesystem) (arg : pyval)
  : result pyval :=
  p <- fspath arg ;;
  let arg := abspath fs p in
  let dir_arg := Posixpath.dirname (abspath fs arg) in
  d <- validate_existing_directory fs (VStr dir_arg) ;;
  if truthy_str d then Ok (VStr arg) else Ok VNone.

(** The [assert] is checked: the interpreter does not run with [-O]. *)
Definition sanitize_path (path : string) : result string :=
  let s_path := Str.lstrip Posixpath.sep (Posixpath.normpath ("/" ++ path)) in
  if (String.length s_path <? 255)%nat then Ok s_path
  else Raise AssertionError.

(** ** [re]: the patterns [validate_proxy_path] needs *)

Module Re.

(** An item of a character set. *)
Inductive item : Type :=
| One (c : ascii)              (* a character *)
| Range (lo hi : ascii)        (* lo-hi *)
| Digit                        (* \d *)
| Not_space.                   (* \S *)

Inductive regex : Type :=
| Empty                                  (* the empty pattern *)
| Char (c : ascii)                       (* a literal character *)
| In (items : list item)                 (* [...] or a category *)
| Cat (r1 r2 : regex)                    (* r1 r2 *)
| Or (r1 r2 : regex)                     (* r1|r2 *)
| Repeat (lo : nat) (hi : option nat) (r : regex)   (* r{lo,hi}, greedy *)
| At_beginning                           (* ^ *)
| At_end.                                (* $ *)

Definition code (c : ascii) : nat := nat_of_ascii c.

Definition between (lo hi : ascii) (c : ascii) : bool :=
  (code lo <=? code c)%nat && (code c <=? code hi)%nat.

(** The decimal digits below U+0100 are 0 to 9. *)
Definition is_digit (c : ascii) : bool := between "0" "9" c.

(** The white space below U+0100: tab, line feed, vertical tab, form feed,
    carriage return, the four separators U+001C to U+001F, space, next
    line (U+0085) and no-break space (U+00A0). *)
Definition is_space (c : ascii) : bool :=
  let n := code c in
  ((9 <=? n) && (n <=? 13) || (28 <=? n) && (n <=? 32)
   || (n =? 133) || (n =? 160))%nat.

(** Case mapping.  The letters of the pattern are ASCII letters, and no
    other character below U+0100 has one of them as a case variant. *)
Definition lower (c : ascii) : ascii :=
  if between "A" "Z" c then ascii_of_nat (code c + 32) else c.

Definition upper (c : ascii) : ascii :=
  if between "a" "z" c then ascii_of_nat (code c - 32) else c.

Definition item_has (i : item) (c : ascii) : bool :=
  match i with
  | One x => Ascii.eqb c x
  | Range lo hi => between lo hi c
  | Digit => is_digit c
  | Not_space => negb (is_space c)
  end.

Definition set_has (items : list item) (c : ascii) : bool :=
  existsb (fun i => item_has i c) items.

(** With [re.IGNORECASE] a character matches when one of its case variants
    does. *)
Definition char_matches (ignorecase : bool) (pat c : ascii) : bool :=
  if ignorecase then Ascii.eqb (lower c) (lower pat) else Ascii.eqb c pat.

Definition set_matches (ignorecase : bool) (items : list item) (c : ascii)
  : bool :=
  if ignorecase then set_has items (lower c) || set_has items (upper c)
  else set_has items c.

(** The matcher walks the subject from left to right.  Its state is the
    number of characters consumed and the rest of the subject; [k] is what
    remains to be matched after the current pattern. *)
Definition state : Type := nat * string.

(** At most [extra] turns of [step], the longer runs tried first. *)
Fixpoint at_most (step : state -> (state -> bool) -> bool) (extra : nat)
    (st : state) (k : state -> bool) : bool :=
  match extra with
  | S extra' =>
      if step st (fun st' => at_most step extra' st' k) then true else k st
  | O => k st
  end.

(** [lo] compulsory turns of [step], then at most [extra] more. *)
Fixpoint times (step : state -> (state -> bool) -> bool) (lo extra : nat)
    (st : state) (k : state -> bool) : bool :=
  match lo with
  | S lo' => step st (fun st' => times step lo' extra st' k)
  | O => at_most step extra st k
  end.

Definition one_char (ok : ascii -> bool) (st : state) (k : state -> bool)
  : bool :=
  match snd st with
  | String c rest => if ok c then k (S (fst st), rest) else false
  | EmptyString => false
  end.

(** The end of the subject, or the line feed that ends it. *)
Definition at_end (s : string) : bool :=
  match s with
  | EmptyString => true
  | String c EmptyString => Ascii.eqb c "010"
  | String _ _ => false
  end.

(** A repetition without an upper bound never needs more turns than the
    subject has characters left. *)
Fixpoint exec (ignorecase : bool) (r : regex) (st : state)
    (k : state -> bool) : bool :=
  match r with
  | Empty => k st
  | Char c => one_char (char_matches ignorecase c) st k
  | In items => one_char (set_matches ignorecase items) st k
  | Cat r1 r2 => exec ignorecase r1 st (fun st' => exec ignorecase r2 st' k)
  | Or r1 r2 =>
      if exec ignorecase r1 st k then true else exec ignorecase r2 st k
  | Repeat lo hi r =>
      let extra :=
        match hi with
        | Some h => h - lo
        | None => String.length (snd st)
        end in
      times (exec ignorecase r) lo extra st k
  | At_beginning => if (fst st =? 0)%nat then k st else false
  | At_end => if at_end (snd st) then k st else false
  end.

(** [re.match(pattern, s) is not None]: a match that starts at the first
    character of [s]. *)
Definition matches (ignorecase : bool) (pattern : regex) (s : string)
  : bool :=
  exec ignorecase pattern (0, s) (fun _ => true).

(** What a pattern matches, without the search: [spans r st st'] says that
    [r] matches the characters between the states [st] and [st']. *)

(** One character that [ok] accepts. *)
Definition consumes (ok : ascii -> bool) (st st' : state) : Prop :=
  exists c rest,
    snd st = String c rest /\ ok c = true /\ st' = (S (fst st), rest).

(** [n] turns of [R] in a row. *)
Fixpoint iter (R : state -> state -> Prop) (n : nat) (st st' : state)
  : Prop :=
  match n with
  | O => st' = st
  | S n' => exists mid, R st mid /\ iter R n' mid st'
  end.

(** The number of turns a repetition [{lo,hi}] allows. *)
Definition within (lo : nat) (hi : option nat) (n : nat) : Prop :=
  lo <= n /\ match hi with
             | Some h => n <= lo + (h - lo)
             | None => True
             end.

Fixpoint spans (ignorecase : bool) (r : regex) (st st' : state) : Prop :=
  match r with
  | Empty => st' = st
  | Char c => consumes (char_matches ignorecase c) st st'
  | In items => consumes (set_matches ignorecase items) st st'
  | Cat r1 r2 =>
      exists mid, spans ignorecase r1 st mid /\ spans ignorecase r2 mid st'
  | Or r1 r2 => spans ignorecase r1 st st' \/ spans ignorecase r2 st st'
  | Repeat lo hi r =>
      exists n, within lo hi n /\ iter (spans ignorecase r) n st st'
  | At_beginning => fst st = 0 /\ st' = st
  | At_end => at_end (snd st) = true /\ st' = st
  end.

(** Shorthands to write patterns. *)
Fixpoint Lit (s : string) : regex :=
  match s with
  | EmptyString => Empty
  | String c s' =>
      match s' with
      | EmptyString => Char c
      | String _ _ => Cat (Char c) (Lit s')
      end
  end.

Fixpoint Seq (rs : list regex) : regex :=
  match rs with
  | [] => Empty
  | [r] => r
  | r :: rs' => Cat r (Seq rs')
  end.

Definition Opt (r : regex) : regex := Repeat 0 (Some 1) r.    (* r? *)
Definition Plus (r : regex) : regex := Repeat 1 None r.       (* r+ *)

End Re.

(** ** [validate_proxy_path] *)

Module Proxy.
Import Re.

Definition alnum : regex := In [Range "A" "Z"; Range "0" "9"].
Definition alnum_dash : regex := In [Range "A" "Z"; Range "0" "9"; One "-"].
Definition letter : regex := In [Range "A" "Z"].
Definition digit : regex := In [Digit].

(** [(?:[A-Z0-9](?:[A-Z0-9-]{0,61}[A-Z0-9])?\.)+] *)
Definition labels : regex :=
  Plus (Seq [alnum;
             Opt (Cat (Repeat 0 (Some 61) alnum_dash) alnum);
             Char "."]).

(** [(?:[A-Z]{2,6}\.?|[A-Z0-9-]{2,}\.?)] *)
Definition top_level : regex :=
  Or (Cat (Repeat 2 (Some 6) letter) (Opt (Char ".")))
     (Cat (Repeat 2 None alnum_dash) (Opt (Char "."))).

(** [\d{1,3}\.\d{1,3}\.\d{1,3}\.\d{1,3}] *)
Definition ipv4 : regex :=
  Seq [Repeat 1 (Some 3) digit; Char ".";
       Repeat 1 (Some 3) digit; Char ".";
       Repeat 1 (Some 3) digit; Char ".";
       Repeat 1 (Some 3) digit].

(** [(?:/?|[/?]\S+)] *)
Definition path_part : regex :=
  Or (Opt (Char "/"))
     (Cat (In [One "/"; One "?"]) (Plus (In [Not_space]))).

(** The pattern of [validate_proxy_path], compiled with [re.IGNORECASE]:
    the scheme, then a domain name, [localhost] or an IPv4 address, then an
    optional port and an optional path. *)
Definition proxy_validation_regex : regex :=
  Seq [At_beginning;
       Or (Lit "http") (Lit "ftp"); Opt (Char "s"); Lit "://";
       Or (Cat labels top_level) (Or (Lit "localhost") ipv4);
       Opt (Cat (Char ":") (Plus digit));
       path_part;
       At_end].

(** The argument is a [str] or [None]. *)
Definition validate_proxy_path (arg : option string)
  : result (option string) :=
  match arg with
  | Some s =>
      if negb (matches true proxy_validation_regex s) then
        Raise (ValueError (s ++ " is not a valid proxy path"))
      else Ok arg
  | None => Ok arg
  end.

End Proxy.

Import Proxy.

(** ** Vocabulary of the properties *)

(** [names msg n]: the text [n] occurs in the message [msg]. *)
Definition names (msg n : string) : Prop :=
  exists before after, msg = before ++ n ++ after.

(** The magnitude of a value: its length when it has one, else the value. *)
Definition magnitude (v : pyval) : Z :=
  if has_len v then len v else int_value v.

(** A rule's bounds reject the magnitude [num]: a lower bound is given and
    [num] is below it, or an upper bound is given and [num] reaches it. *)
Definition out_of_range (r : rule) (num : Z) : Prop :=
  (exists lo, item2 r = Some lo /\ (num < lo)%Z)
  \/ (exists hi, item3 r = Some hi /\ (num >= hi)%Z).

(** The range check of an accepted value that is not [None]. *)
Definition range_check (arg : rule) : result unit :=
  let val := if has_len (item0 arg) then "Length" else "Value" in
  let name := if (rule_len arg =? 5)%nat then "of " ++ item4 arg else "" in
  let num := magnitude (item0 arg) in
  match item2 arg with
  | Some lo =>
      if (num <? lo)%Z then Raise (ValueError (min_error_message val name lo))
      else match item3 arg with
           | Some hi =>
               if (num >=? hi)%Z then
                 Raise (ValueError (max_error_message val name hi))
               else Ok tt
           | None => Ok tt
           end
  | None =>
      match item3 arg with
      | Some hi =>
          if (num >=? hi)%Z then
            Raise (ValueError (max_error_message val name hi))
          else Ok tt
      | None => Ok tt
      end
  end.

(** A string without a separator. *)
Fixpoint no_sep (s : string) : bool :=
  match s with
  | EmptyString => true
  | String x s' => negb (Ascii.eqb x Posixpath.sep) && no_sep s'
  end.

(** A component that [normpath] keeps below a root: a name that is not
    empty, not [.] and not [..]. *)
Definition kept (c : string) : Prop :=
  c <> "" /\ c <> Posixpath.dot /\ c <> Posixpath.dotdot /\ no_sep c = true.

(** The components [sanitize_path] keeps of a path. *)
Definition components (path : string) : list string :=
  fold_left (Posixpath.norm_step (Posixpath.initial_slashes ("/" ++ path)))
            (Str.split Posixpath.sep path) [].

(** The first component of a path is [..]. *)
Definition leading_dotdot (s : string) : bool :=
  match Str.split Posixpath.sep s with
  | c :: _ => c =? Posixpath.dotdot
  | [] => false
  end.

(** The characters of the components and one separator for each. *)
Fixpoint weight (comps : list string) : nat :=
  match comps with
  | [] => 0
  | c :: rest => S (String.length c) + weight rest
  end.

(** A file system without any directory. *)
Definition fs_bare : filesystem :=
  {| cwd := "/home/user"; isfile := fun _ => false; isdir := fun _ => false |}.

(** A file system where every path is a file and a directory, seen from a
    directory whose name has 255 characters. *)
Definition fs_deep : filesystem :=
  {| cwd := String Posixpath.sep (Str.repeat "d" 254);
     isfile := fun _ => true; isdir := fun _ => true |}.

(** The same, seen from [/srv]. *)
Definition fs_srv : filesystem :=
  {| cwd := "/srv"; isfile := fun _ => true; isdir := fun _ => true |}.

Definition too_long : exn := ValueError "Length  must be less than 255".

(** What a step of the matcher does for a relation [R] between states. *)
Definition finds (step : Re.state -> (Re.state -> bool) -> bool)
    (R : Re.state -> Re.state -> Prop) : Prop :=
  forall st k, step st k = true <-> exists st', R st st' /\ k st' = true.

(** A relation between states that does not go backwards: it consumes
    characters or leaves the state as it is. *)
Definition forward (R : Re.state -> Re.state -> Prop) : Prop :=
  forall st st',
    R st st' ->
    st' = st \/ String.length (snd st') < String.length (snd st).

(** ** [check] and [check_size] *)

(** The attributes of an [argparse] namespace. *)
Definition namespace : Type := string -> option pyval.

(** [setattr(namespace, dest, values)] *)
Definition setattr (ns : namespace) (dest : string) (values : pyval)
  : namespace :=
  fun attr => if attr =? dest then Some values else ns attr.

(** The call of the action [check(validator)] builds, for an option stored
    under [dest]: the validator is run for its exceptions and its result is
    dropped. *)
Definition check {A : Type} (validator : pyval -> result A) (dest : string)
    (ns : namespace) (values : pyval) : result namespace :=
  validator values ;;
  Ok (setattr ns dest values).


(** ** [walk_directory] *)

(** What a consumer of the generator observes: the lines printed and the
    pairs yielded, in order. *)
Inductive event : Type :=
| Printed (line : string)
| Yielded (filename doc_text : string).

Inductive io_error : Type :=
| OSError (msg : string)
| UnicodeDecodeError (msg : string).

(** [io.open(file_path, 'r', encoding='utf-8')] followed by [file.read()]:
    the file cannot be opened, or it is opened and its bytes are not UTF-8,
    or it is read. *)
Inductive opened : Type :=
| Open_fails (e : io_error)
| Read_fails (e : io_error)
| Text (doc_text : string).

(** The events of a walk, and the exception that ended it if one did. *)
Definition outcome : Type := (list event * option io_error)%type.

(** The inner loop, over the file names of one directory. *)
Fixpoint read_files (fs : filesystem) (open_text : string -> opened)
    (dir_path : string) (filenames : list string) : outcome :=
  match filenames with
  | [] => ([], None)
  | filename :: rest =>
      let file_path := Posixpath.join dir_path filename in
      if isfile fs file_path && negb (Str.startswith filename ".") then
        match open_text file_path with
        | Open_fails e => ([], Some e)
        | Read_fails e => ([Printed ("Reading " ++ filename)], Some e)
        | Text doc_text =>
            let '(events, err) := read_files fs open_text dir_path rest in
            (Printed ("Reading " ++ filename) :: Yielded filename doc_text
               :: events, err)
        end
      else read_files fs open_text dir_path rest
  end.

(** The outer loop, over the triples [(dir_path, dirnames, filenames)] of
    [os.walk]. *)
Fixpoint walk_loop (fs : filesystem) (open_text : string -> opened)
    (walk : list (string * list string * list string)) : outcome :=
  match walk with
  | [] => ([], None)
  | (dir_path, _, filenames) :: rest =>
      match read_files fs open_text dir_path filenames with
      | (events, Some e) => (events, Some e)
      | (events, None) =>
          let '(events', err) := walk_loop fs open_text rest in
          ((events ++ events')%list, err)
      end
  end.

(** [walk_directory(directory)], run to its end; [os_walk] is what
    [os.walk] yields for a directory. *)
Definition walk_directory (fs : filesystem) (open_text : string -> opened)
    (os_walk : string -> list (string * list string * list string))
    (directory : string) : outcome :=
  walk_loop fs open_text (os_walk directory).

(** ** [validate_input_args] of [examples/chunker/train.py] *)

(** The command-line arguments the function reads. *)
Record chunker_args : Type := {
  sentence_len : pyval;
  lstm_depth : pyval;
  lstm_hidden_size : pyval;
  token_embedding_size : pyval;
  pos_embedding_size : pyval;
  vocab_size : pyval;
  char_hidden_size : pyval;
  max_char_word_length : pyval;
  model_name : string;
  settings : string
}.

(** [script] is [path.realpath(__file__)]; the two names are strings, which
    [str] returns as they are. *)
Definition validate_input_args (fs : filesystem) (script : string)
    (args : chunker_args) : result (string * string) :=
  validate [Rule4 (sentence_len args) (Single ty_int) (Some 1%Z) (Some 1000%Z)] ;;
  validate [Rule4 (lstm_depth args) (Single ty_int) (Some 1%Z) (Some 10%Z)] ;;
  validate [Rule4 (lstm_hidden_size args) (Single ty_int)
              (Some 1%Z) (Some 10000%Z)] ;;
  validate [Rule4 (token_embedding_size args) (Single ty_int)
              (Some 1%Z) (Some 10000%Z)] ;;
  validate [Rule4 (pos_embedding_size args) (Single ty_int)
              (Some 1%Z) (Some 1000%Z)] ;;
  validate [Rule4 (vocab_size args) (Single ty_int)
              (Some 1%Z) (Some 100000000%Z)] ;;
  validate [Rule4 (char_hidden_size args) (Single ty_int)
              (Some 1%Z) (Some 1000%Z)] ;;
  validate [Rule4 (max_char_word_length args) (Single ty_int)
              (Some 1%Z) (Some 100%Z)] ;;
  let m_path := Posixpath.join (Posixpath.dirname script) (model_name args) in
  let s_path := Posixpath.join (Posixpath.dirname script) (settings args) in
  validate_parent_exists fs (VStr m_path) ;;
  validate_parent_exists fs (VStr s_path) ;;
  Ok (m_path, s_path).

(** ** Vocabulary of the further properties *)

(** An absolute path in normal form: [normpath] leaves it as it is. *)
Definition absolute_normal (p : string) : Prop :=
  Posixpath.isabs p = true /\ Posixpath.normpath p = p.

(** A hyperparameter accepted below the bound [hi]: an [int] (a [bool]
    counts as one) that is at least 1 and less than [hi]. *)
Definition hyperparameter (v : pyval) (hi : Z) : Prop :=
  isinstance v [ty_int] = true /\ (1 <= int_value v < hi)%Z.

(** The ranges [validate_input_args] allows. *)
Definition hyperparameters_ok (args : chunker_args) : Prop :=
  hyperparameter (sentence_len args) 1000
  /\ hyperparameter (lstm_depth args) 10
  /\ hyperparameter (lstm_hidden_size args) 10000
  /\ hyperparameter (token_embedding_size args) 10000
  /\ hyperparameter (pos_embedding_size args) 1000
  /\ hyperparameter (vocab_size args) 100000000
  /\ hyperparameter (char_hidden_size args) 1000
  /\ hyperparameter (max_char_word_length args) 100.

(** The default arguments of the script. *)
Definition default_args : chunker_args :=
  {| sentence_len := VInt 100; lstm_depth := VInt 1;
     lstm_hidden_size := VInt 100; token_embedding_size := VInt 50;
     pos_embedding_size := VInt 25; vocab_size := VInt 25000;
     char_hidden_size := VInt 25; max_char_word_length := VInt 20;
     model_name := "chunker"; settings := "chunker_settings" |}.

(** The pairs a walk yields, in order. *)
Fixpoint yielded (events : list event) : list (string * string) :=
  match events with
  | [] => []
  | Yielded filename doc_text :: rest => (filename, doc_text) :: yielded rest
  | Printed _ :: rest => yielded rest
  end.

(** A file name [walk_directory] reads in the directory [dir_path]: the name
    of a regular file that does not start with a dot. *)
Definition visible (fs : filesystem) (dir_path filename : string) : bool :=
  isfile fs (Posixpath.join dir_path filename)
  && negb (Str.startswith filename ".").

(** The text of a file that can be read. *)
Definition text_of (open_text : string -> opened) (file_path : string)
  : string :=
  match open_text file_path with
  | Text doc_text => doc_text
  | Open_fails _ | Read_fails _ => ""
  end.

(** The visible files of a walk with their texts, directory after directory
    in the order of [os.walk], and within a directory in the order of its
    listing. *)
Definition visible_files (fs : filesystem) (open_text : string -> opened)
    (walk : list (string * list string * list string))
  : list (string * string) :=
  flat_map
    (fun '(dir_path, _, filenames) =>
       map (fun filename =>
              (filename, text_of open_text (Posixpath.join dir_path filename)))
           (filter (visible fs dir_path) filenames))
    walk.

(** What a consumer sees for one file: the line printed, then the pair. *)
Definition announced (file : string * string) : list event :=
  [Printed ("Reading " ++ fst file); Yielded (fst file) (snd file)].

(** A walk over a directory with a hidden file, a file that is not UTF-8, a
    subdirectory and a hidden directory. *)
Definition walk_example (directory : string)
  : list (string * list string * list string) :=
  [(directory, ["sub"; ".git"], ["a.txt"; ".hidden"; "b.bin"; "c.txt"]);
   (Posixpath.join directory "sub", [], ["d.txt"]);
   (Posixpath.join directory ".git", [], ["config"])].

Definition open_example (file_path : string) : opened :=
  if file_path =? "docs/b.bin" then Read_fails (UnicodeDecodeError "b.bin")
  else Text ("text of " ++ file_path).

Definition open_all (file_path : string) : opened :=
  Text ("text of " ++ file_path).

(** [validate_proxy_path] accepts the string [s]. *)
Definition proxy_ok (s : string) : Prop :=
  validate_proxy_path (Some s) = Ok (Some s).

(** The letters of a string put in lower case. *)
Fixpoint lower_str (s : string) : string :=
  match s with
  | EmptyString => EmptyString
  | String c s' => String (Re.lower c) (lower_str s')
  end.

(** A string without white space. *)
Fixpoint no_space (s : string) : bool :=
  match s with
  | EmptyString => true
  | String c s' => negb (Re.is_space c) && no_space s'
  end.

(** The line feed, as a string. *)
Definition line_feed : string := String "010" EmptyString.

(** The 256 characters. *)
Definition all_ascii : list ascii := map ascii_of_nat (seq 0 256).

(** A matcher state with its subject in lower case. *)
Definition low (st : Re.state) : Re.state := (fst st, lower_str (snd st)).

(** Every character a pattern can consume, case ignored, is not white
    space. *)
Fixpoint space_free (r : Re.regex) : bool :=
  match r with
  | Re.Char c =>
      forallb (fun x => implb (Re.char_matches true c x)
                              (negb (Re.is_space x))) all_ascii
  | Re.In items =>
      forallb (fun x => implb (Re.set_matches true items x)
                              (negb (Re.is_space x))) all_ascii
  | Re.Cat r1 r2 | Re.Or r1 r2 => space_free r1 && space_free r2
  | Re.Repeat _ _ r' => space_free r'
  | Re.Empty | Re.At_beginning | Re.At_end => true
  end.

(** A pattern without [$]. *)
Fixpoint end_free (r : Re.regex) : bool :=
  match r with
  | Re.Cat r1 r2 | Re.Or r1 r2 => end_free r1 && end_free r2
  | Re.Repeat _ _ r' => end_free r'
  | Re.At_end => false
  | Re.Empty | Re.Char _ | Re.In _ | Re.At_beginning => true
  end.

(** A sequence whose last pattern is [$] and that has no other. *)
Fixpoint end_last (r : Re.regex) : bool :=
  match r with
  | Re.Cat r1 r2 => end_free r1 && end_last r2
  | Re.At_end => true
  | _ => false
  end.

(** What a relation between states consumes: the characters between the two
    states, none of which is white space when [P] holds. *)
Definition consumed (P : Prop) (R : Re.state -> Re.state -> Prop) : Prop :=
  forall st st',
    R st st' ->
    exists u, snd st = u ++ snd st'
              /\ fst st' = fst st + String.length u
              /\ (P -> no_space u = true).

(** ** The runtime functions on known inputs *)

Example split_keeps_empty_pieces :
  Str.split "/" "/a//b/" = [""; "a"; ""; "b"; ""] /\ Str.split "/" "" = [""].
Proof. split; reflexivity. Qed.

Example strip_examples :
  Str.lstrip "/" "//a/b/" = "a/b/" /\ Str.rstrip "/" "/a//b//" = "/a//b"
  /\ Str.rfind "/a/b" "/" = 2%Z /\ Str.rfind "ab" "/" = (-1)%Z.
Proof. repeat split; reflexivity. Qed.

Example str_of_int_examples :
  str_of_int 255 = "255" /\ str_of_int 0 = "0" /\ str_of_int (-12) = "-12".
Proof. repeat split; reflexivity. Qed.

Example normpath_examples :
  Posixpath.normpath "A//B" = "A/B"
  /\ Posixpath.normpath "A/./B" = "A/B"
  /\ Posixpath.normpath "A/foo/../B" = "A/B"
  /\ Posixpath.normpath "" = "."
  /\ Posixpath.normpath "../a/.." = ".."
  /\ Posixpath.normpath "/../a" = "/a"
  /\ Posixpath.normpath "//a" = "//a"
  /\ Posixpath.normpath "///a" = "/a".
Proof. repeat split; reflexivity. Qed.

Example join_examples :
  Posixpath.join "/a" "b" = "/a/b" /\ Posixpath.join "/a/" "b" = "/a/b"
  /\ Posixpath.join "/a" "/b" = "/b" /\ Posixpath.join "" "b" = "b".
Proof. repeat split; reflexivity. Qed.

Example dirname_examples :
  Posixpath.dirname "/a/b" = "/a" /\ Posixpath.dirname "/a" = "/"
  /\ Posixpath.dirname "a" = "" /\ Posixpath.dirname "/a//b" = "/a"
  /\ Posixpath.dirname "//" = "//".
Proof. repeat split; reflexivity. Qed.

Example isinstance_examples :
  isinstance (VBool true) [ty_int] = true
  /\ isinstance (VInt 1) [ty_bool] = false
  /\ isinstance VNone [ty_int; ty_NoneType] = true
  /\ isinstance (VStr "a") [ty_object] = true
  /\ isinstance (VStr "a") [] = false.
Proof. repeat split; reflexivity. Qed.

Example validate_messages :
  validate [Rule5 (VInt 12) (Single ty_int) (Some 1%Z) (Some 10%Z) "depth"]
  = Raise (ValueError "Value of depth must be less than 10")
  /\ validate [Rule4 (VStr "") (Single ty_str) (Some 1%Z) None]
     = Raise (ValueError "Length  must be greater or equal to 1")
  /\ validate [Rule2 (VInt 1) (Single ty_int);
               Rule2 (VInt 2) (Tuple [ty_str; ty_list])]
     = Raise (TypeError "Expected type str or list").
Proof. repeat split; reflexivity. Qed.

Example character_tables :
  let chars := map ascii_of_nat (seq 0 256) in
  map Re.code (filter Re.is_space chars)
  = [9; 10; 11; 12; 13; 28; 29; 30; 31; 32; 133; 160]
  /\ map Re.code (filter Re.is_digit chars) = seq 48 10
  /\ map Re.code (filter (Re.set_matches true [Re.Range "A" "Z"]) chars)
     = (seq 65 26 ++ seq 97 26)%list
  /\ map Re.code (filter (Re.char_matches true "s") chars) = [83; 115].
Proof. vm_compute. repeat split; reflexivity. Qed.

Example proxy_pattern_accepts :
  forallb (Re.matches true proxy_validation_regex)
    ["http://example.com"; "HTTPS://Example.COM."; "ftp://a.b-c.example.org";
     "ftps://files.example.org:21/pub"; "http://localhost";
     "https://localhost:8443/"; "http://10.0.0.1"; "ftp://192.168.1.20:2121";
     "http://proxy.example.com:911/?x=1"; "http://localhost?x"]
  = true.
Proof. vm_compute. reflexivity. Qed.

Example proxy_pattern_refuses :
  existsb (Re.matches true proxy_validation_regex)
    [""; "http://"; "localhost"; "gopher://example.com"; "http://example";
     "http://example.c"; "http://-a.com"; "http://ex_ample.com";
     "http://localhost:"; "http://localhost:80:80"; "http://1.2.3";
     "http://localhost/a b"; " http://localhost"; "xhttp://localhost"]
  = false.
Proof. vm_compute. reflexivity. Qed.

(** ** Properties of [validate] *)

Section ValidateFacts.

Lemma append_assoc (a b c : string) : (a ++ b) ++ c = a ++ (b ++ c).
Proof. induction a as [|x a IH]; simpl; [reflexivity | now rewrite IH]. Qed.

Lemma append_nil_r (a : string) : a ++ "" = a.
Proof. induction a as [|x a IH]; simpl; [reflexivity | now rewrite IH]. Qed.

Lemma names_concat (sep x : string) (l : list string) :
  In x l -> names (String.concat sep l) x.
Proof.
  induction l as [|y l IH]; intros Hin; [contradiction|].
  destruct Hin as [-> | Hin].
  - destruct l as [|z l].
    + exists "", "". simpl. now rewrite append_nil_r.
    + exists "", (sep ++ String.concat sep (z :: l)). reflexivity.
  - destruct l as [|z l]; [contradiction|].
    destruct (IH Hin) as (before & after & E).
    exists (y ++ sep ++ before), after.
    change (String.concat sep (y :: z :: l))
      with (y ++ sep ++ String.concat sep (z :: l)).
    rewrite E. now rewrite !append_assoc.
Qed.

Lemma names_type_error (ts : list pytype) (t : pytype) :
  In t ts -> names (type_error_message ts) (type_name t).
Proof.
  intros Hin. unfold type_error_message.
  destruct (names_concat " or " (type_name t) (map type_name ts))
    as (before & after & E).
  - now apply in_map.
  - exists ("Expected type " ++ before), after.
    rewrite E. now rewrite append_assoc.
Qed.

Lemma isinstance_spec (v : pyval) (ts : list pytype) :
  isinstance v ts = true <->
  exists t, In t ts /\ issubclass (type_of v) t = true.
Proof. unfold isinstance. apply existsb_exists. Qed.

Lemma validate_one (r : rule) : validate [r] = validate_rule r.
Proof. simpl. now destruct (validate_rule r) as [[]|e]. Qed.

Lemma validate_rule_rejected (r : rule) :
  isinstance (item0 r) (accepted (item1 r)) = false ->
  validate_rule r = Raise (TypeError (type_error_message (accepted (item1 r)))).
Proof. intros H. unfold validate_rule. now rewrite H. Qed.

Lemma validate_rule2 (v : pyval) (c : classinfo) :
  validate_rule (Rule2 v c) =
  if isinstance v (accepted c) then Ok tt
  else Raise (TypeError (type_error_message (accepted c))).
Proof.
  unfold validate_rule. simpl.
  destruct (isinstance v (accepted c)); simpl; [|reflexivity].
  now rewrite andb_false_r.
Qed.

Lemma validate_rule_accepted (r : rule) :
  isinstance (item0 r) (accepted (item1 r)) = true ->
  validate_rule r =
  if negb (is_None (item0 r)) && (4 <=? rule_len r)%nat then range_check r
  else Ok tt.
Proof.
  intros H. unfold validate_rule, range_check, magnitude, bind.
  rewrite H. cbn [negb].
  destruct (negb (is_None (item0 r)) && (4 <=? rule_len r)%nat);
    [|reflexivity].
  destruct (has_len (item0 r)); destruct (item2 r) as [lo|];
    destruct (item3 r) as [hi|];
    repeat match goal with
           | |- context [(?a <? ?b)%Z] => destruct (a <? b)%Z
           | |- context [(?a >=? ?b)%Z] => destruct (a >=? b)%Z
           end; reflexivity.
Qed.

Lemma range_check_raises (r : rule) (e : exn) :
  range_check r = Raise e -> exists msg, e = ValueError msg.
Proof.
  unfold range_check.
  destruct (item2 r) as [lo|]; destruct (item3 r) as [hi|];
    repeat match goal with
           | |- context [if ?b then _ else _] => destruct b
           end; intros E; inversion E; eauto.
Qed.

Lemma range_check_ok (r : rule) :
  range_check r = Ok tt <-> ~ out_of_range r (magnitude (item0 r)).
Proof.
  unfold range_check, out_of_range.
  destruct (item2 r) as [lo|]; destruct (item3 r) as [hi|];
    repeat match goal with
           | |- context [(?a <? ?b)%Z] => destruct (Z.ltb_spec a b)
           | |- context [(?a >=? ?b)%Z] =>
               rewrite (Z.geb_leb a b); destruct (Z.leb_spec b a)
           end;
    split; intros Hr; try discriminate; try reflexivity.
  all: try (intros [(x & E & Hx) | (x & E & Hx)]; inversion E; subst; lia).
  all: exfalso; apply Hr; eauto 6 using Z.le_ge.
Qed.

Lemma range_check_raise (r : rule) :
  (exists msg, range_check r = Raise (ValueError msg)) <->
  out_of_range r (magnitude (item0 r)).
Proof.
  split.
  - intros (msg & E).
    destruct (range_check_ok r) as [_ Hok].
    unfold out_of_range in *.
    assert (Hdec : forall (o : option Z) (P : Z -> Prop),
               (forall z, {P z} + {~ P z}) ->
               (exists z, o = Some z /\ P z) \/ ~ (exists z, o = Some z /\ P z)).
    { intros [z|] P dec.
      - destruct (dec z); [left; eauto | right].
        intros (z' & Ez & Hz). inversion Ez; subst. contradiction.
      - right. intros (z' & Ez & _). discriminate. }
    destruct (Hdec (item2 r) (fun lo => (magnitude (item0 r) < lo)%Z))
      as [Hlo|Hlo]; [intros z; apply Z_lt_dec | now left |].
    destruct (Hdec (item3 r) (fun hi => (magnitude (item0 r) >= hi)%Z))
      as [Hhi|Hhi]; [intros z; apply Z_ge_dec | now right |].
    rewrite Hok in E; [discriminate | tauto].
  - intros Hout.
    destruct (range_check r) as [[]|e] eqn:E.
    + apply range_check_ok in E. contradiction.
    + destruct (range_check_raises r e E) as (msg & ->). eauto.
Qed.

End ValidateFacts.

(** C1: [validate((v, t))] succeeds if and only if [v] is an instance of one
    of the accepted types, [t] being one type or a tuple of types; when it is
    not, [validate] raises a [TypeError] whose message names every accepted
    type. *)
Theorem validate_type_check (v : pyval) (t : classinfo) :
  (validate [Rule2 v t] = Ok tt <-> isinstance v (accepted t) = true)
  /\ (isinstance v (accepted t) = true <->
      exists c, In c (accepted t) /\ issubclass (type_of v) c = true)
  /\ (isinstance v (accepted t) = false ->
      validate [Rule2 v t]
      = Raise (TypeError (type_error_message (accepted t)))
      /\ forall c, In c (accepted t) ->
           names (type_error_message (accepted t)) (type_name c)).
Proof.
  rewrite validate_one, validate_rule2.
  split; [|split].
  - destruct (isinstance v (accepted t)); split; intros H;
      try reflexivity; discriminate.
  - apply isinstance_spec.
  - intros ->. split; [reflexivity|].
    intros c Hc. now apply names_type_error.
Qed.

Lemma validate_type_check_witness :
  isinstance (VInt 5) (accepted (Tuple [ty_str; ty_NoneType])) = false
  /\ validate [Rule2 (VInt 5) (Tuple [ty_str; ty_NoneType])]
     = Raise (TypeError "Expected type str or NoneType")
  /\ names "Expected type str or NoneType" "NoneType".
Proof.
  split; [reflexivity|].
  destruct (validate_type_check (VInt 5) (Tuple [ty_str; ty_NoneType]))
    as (_ & _ & H).
  destruct (H eq_refl) as (E & N).
  split; [exact E|].
  apply (N ty_NoneType). simpl. auto.
Defined.

(** C2: for a rule of at least four items whose value is accepted and is not
    [None], [validate] raises a [ValueError] if and only if a lower bound is
    given and the magnitude is below it, or an upper bound is given and the
    magnitude reaches it (the upper bound is exclusive), and returns
    otherwise; the magnitude is the length of a value that has one and the
    value itself otherwise.  For a string of length [L],
    [validate((s, str, lo, hi))] fails iff [L < lo] or [L >= hi].  When the
    value is [None] the range check is skipped. *)
Theorem validate_range_check :
  (forall r : rule,
      (4 <= rule_len r)%nat ->
      isinstance (item0 r) (accepted (item1 r)) = true ->
      item0 r <> VNone ->
      ((exists msg, validate [r] = Raise (ValueError msg))
       <-> out_of_range r (magnitude (item0 r)))
      /\ (validate [r] = Ok tt <-> ~ out_of_range r (magnitude (item0 r))))
  /\ (forall (s : string) (lo hi : Z),
        magnitude (VStr s) = Z.of_nat (String.length s)
        /\ (is_Ok (validate [Rule4 (VStr s) (Single ty_str) (Some lo) (Some hi)])
            = false
            <-> (Z.of_nat (String.length s) < lo
                 \/ Z.of_nat (String.length s) >= hi)%Z))
  /\ (forall r : rule,
        item0 r = VNone ->
        isinstance VNone (accepted (item1 r)) = true ->
        validate [r] = Ok tt).
Proof.
  assert (General : forall r : rule,
      (4 <= rule_len r)%nat ->
      isinstance (item0 r) (accepted (item1 r)) = true ->
      item0 r <> VNone ->
      validate [r] = range_check r).
  { intros r Hlen Hty Hnone.
    rewrite validate_one, (validate_rule_accepted r Hty).
    apply Nat.leb_le in Hlen. rewrite Hlen.
    destruct (item0 r); try reflexivity. now contradiction Hnone. }
  split; [|split].
  - intros r Hlen Hty Hnone. rewrite (General r Hlen Hty Hnone).
    split; [apply range_check_raise | apply range_check_ok].
  - intros s lo hi. split; [reflexivity|].
    rewrite (General (Rule4 (VStr s) (Single ty_str) (Some lo) (Some hi)));
      [| simpl; lia | reflexivity | discriminate].
    set (r := Rule4 (VStr s) (Single ty_str) (Some lo) (Some hi)).
    assert (Hout : out_of_range r (magnitude (item0 r))
                   <-> (Z.of_nat (String.length s) < lo
                        \/ Z.of_nat (String.length s) >= hi)%Z).
    { unfold out_of_range, r; simpl. split.
      - intros [(x & E & Hx) | (x & E & Hx)]; inversion E; subst; auto.
      - intros [Hx | Hx]; [left; exists lo | right; exists hi]; auto. }
    rewrite <- Hout.
    destruct (range_check r) as [[]|e] eqn:E; simpl.
    + apply range_check_ok in E. split; [discriminate | contradiction].
    + split; [intros _ | reflexivity].
      destruct (range_check_raises r e E) as (msg & ->).
      apply range_check_raise. eauto.
  - intros r Hnone Hty. rewrite <- Hnone in Hty.
    rewrite validate_one, (validate_rule_accepted r Hty), Hnone.
    reflexivity.
Qed.

Lemma validate_range_check_witness :
  (exists msg,
      validate [Rule5 (VInt 12) (Single ty_int) (Some 1%Z) (Some 10%Z) "depth"]
      = Raise (ValueError msg))
  /\ validate [Rule4 VNone (Tuple [ty_int; ty_NoneType]) (Some 1%Z) (Some 10%Z)]
     = Ok tt.
Proof.
  destruct validate_range_check as (Hgen & _ & Hnone).
  split.
  - apply (Hgen (Rule5 (VInt 12) (Single ty_int) (Some 1%Z) (Some 10%Z) "depth"));
      [simpl; lia | reflexivity | discriminate |].
    right. exists 10%Z. split; [reflexivity | vm_compute; discriminate].
  - apply (Hnone (Rule4 VNone (Tuple [ty_int; ty_NoneType])
                    (Some 1%Z) (Some 10%Z))); reflexivity.
Defined.

(** C8: the type check of a rule comes before its range check: a rule whose
    value is not accepted raises the [TypeError] whatever its bounds, also
    when the magnitude is out of range, and a [ValueError] leaves [validate]
    only from a rule whose value was accepted. *)
Theorem validate_type_before_range :
  (forall (r : rule) (rest : list rule),
      isinstance (item0 r) (accepted (item1 r)) = false ->
      validate (r :: rest)
      = Raise (TypeError (type_error_message (accepted (item1 r)))))
  /\ (forall (args : list rule) (msg : string),
        validate args = Raise (ValueError msg) ->
        exists r, In r args
                  /\ isinstance (item0 r) (accepted (item1 r)) = true
                  /\ validate_rule r = Raise (ValueError msg)).
Proof.
  split.
  - intros r rest H. simpl. now rewrite (validate_rule_rejected r H).
  - intros args msg. induction args as [|r args IH]; simpl; [discriminate|].
    destruct (validate_rule r) as [[]|e] eqn:E; simpl.
    + intros H. destruct (IH H) as (r' & Hin & Hty & Hr'). eauto.
    + intros H. inversion H; subst e. exists r. split; [now left|].
      split; [|exact E].
      destruct (isinstance (item0 r) (accepted (item1 r))) eqn:Hty;
        [reflexivity|].
      rewrite (validate_rule_rejected r Hty) in E. discriminate.
Qed.

Lemma validate_type_before_range_witness :
  out_of_range (Rule4 (VStr "abcdef") (Single ty_int) (Some 0%Z) (Some 3%Z))
               (magnitude (VStr "abcdef"))
  /\ validate [Rule4 (VStr "abcdef") (Single ty_int) (Some 0%Z) (Some 3%Z)]
     = Raise (TypeError "Expected type int").
Proof.
  split.
  - right. exists 3%Z. split; [reflexivity | vm_compute; discriminate].
  - apply (proj1 validate_type_before_range
             (Rule4 (VStr "abcdef") (Single ty_int) (Some 0%Z) (Some 3%Z)) []).
    reflexivity.
Defined.

(** ** Properties of [sanitize_path] *)

Section PathFacts.
Import Posixpath.

Lemma length_append (a b : string) :
  String.length (a ++ b) = String.length a + String.length b.
Proof. induction a as [|x a IH]; simpl; [reflexivity | now rewrite IH]. Qed.

Lemma split_not_nil (c : ascii) (s : string) : Str.split c s <> [].
Proof.
  destruct s as [|x s]; simpl; [discriminate|].
  destruct (Ascii.eqb x c); [discriminate|].
  destruct (Str.split c s); discriminate.
Qed.

Lemma split_no_sep (s : string) :
  Forall (fun c => no_sep c = true) (Str.split sep s).
Proof.
  induction s as [|x s IH]; simpl.
  - repeat constructor.
  - destruct (Ascii.eqb x sep) eqn:E.
    + constructor; [reflexivity | exact IH].
    + destruct (Str.split sep s) as [|piece pieces].
      * repeat constructor. simpl. now rewrite E.
      * inversion IH; subst. constructor; [|assumption].
        simpl. now rewrite E.
Qed.

Lemma split_single (c : string) : no_sep c = true -> Str.split sep c = [c].
Proof.
  induction c as [|x c IH]; simpl; [reflexivity|].
  intros H. apply andb_prop in H as [Hx Hc].
  apply negb_true_iff in Hx. rewrite Hx, (IH Hc). reflexivity.
Qed.

Lemma split_app (c s : string) :
  no_sep c = true ->
  Str.split sep (c ++ String sep s) = c :: Str.split sep s.
Proof.
  induction c as [|x c IH]; simpl; intros H.
  - reflexivity.
  - apply andb_prop in H as [Hx Hc].
    apply negb_true_iff in Hx. rewrite Hx, (IH Hc). reflexivity.
Qed.

Lemma join_cons (c d : string) (cs : list string) :
  Str.join sep (c :: d :: cs) = c ++ String sep (Str.join sep (d :: cs)).
Proof. reflexivity. Qed.

Lemma split_join (cs : list string) :
  Forall (fun c => no_sep c = true) cs -> cs <> [] ->
  Str.split sep (Str.join sep cs) = cs.
Proof.
  induction cs as [|c cs IH]; intros Hall Hne; [contradiction|].
  inversion Hall as [|? ? Hc Hcs]; subst.
  destruct cs as [|d cs].
  - now apply split_single.
  - rewrite join_cons, (split_app _ _ Hc), IH; [reflexivity | assumption |].
    discriminate.
Qed.

Lemma weight_app (a b : list string) : weight (a ++ b) = weight a + weight b.
Proof. induction a as [|c a IH]; simpl; [reflexivity | rewrite IH; lia]. Qed.

Lemma weight_removelast (a : list string) : weight (removelast a) <= weight a.
Proof.
  induction a as [|c a IH]; simpl; [lia|].
  destruct a as [|d a]; simpl in *; lia.
Qed.

Lemma weight_split (c : ascii) (s : string) :
  weight (Str.split c s) = S (String.length s).
Proof.
  induction s as [|x s IH]; simpl; [reflexivity|].
  destruct (Ascii.eqb x c); simpl; [now rewrite IH|].
  destruct (Str.split c s) as [|piece pieces]; simpl in *; lia.
Qed.

Lemma length_join (cs : list string) :
  String.length (Str.join sep cs) = pred (weight cs).
Proof.
  induction cs as [|c cs IH]; [reflexivity|].
  destruct cs as [|d cs].
  - unfold Str.join. simpl. lia.
  - rewrite join_cons, length_append.
    change (String.length (String sep (Str.join sep (d :: cs))))
      with (S (String.length (Str.join sep (d :: cs)))).
    rewrite IH. simpl. lia.
Qed.

Lemma weight_norm_step (n : nat) (acc : list string) (comp : string) :
  weight (norm_step n acc comp) <= weight acc + S (String.length comp).
Proof.
  unfold norm_step.
  repeat match goal with
         | |- context [if ?b then _ else _] => destruct b
         end;
    rewrite ?weight_app; simpl;
    try (pose proof (weight_removelast acc)); lia.
Qed.

Lemma weight_fold (n : nat) (comps acc : list string) :
  weight (fold_left (norm_step n) comps acc) <= weight acc + weight comps.
Proof.
  revert acc. induction comps as [|c comps IH]; intros acc; simpl; [lia|].
  specialize (IH (norm_step n acc c)).
  pose proof (weight_norm_step n acc c). lia.
Qed.

Lemma components_length (path : string) :
  String.length (Str.join sep (components path)) <= String.length path.
Proof.
  rewrite length_join. unfold components.
  pose proof (weight_fold (initial_slashes ("/" ++ path))
                (Str.split sep path) []) as H.
  rewrite weight_split in H.
  change (weight []) with 0 in H. lia.
Qed.

Lemma kept_last (acc : list string) :
  Forall kept acc -> (List.last acc "" =? dotdot) = false.
Proof.
  intros H. apply String.eqb_neq.
  destruct acc as [|c acc] using rev_ind; [discriminate|].
  rewrite last_last. apply Forall_app in H as [_ H].
  inversion H as [|? ? (_ & _ & Hdd & _) _]; subst. exact Hdd.
Qed.

Lemma Forall_removelast (P : string -> Prop) (l : list string) :
  Forall P l -> Forall P (removelast l).
Proof.
  destruct l as [|c l] using rev_ind; [auto|].
  rewrite removelast_last. intros H. now apply Forall_app in H as [H _].
Qed.

Lemma norm_step_kept (n : nat) (acc : list string) (comp : string) :
  Forall kept acc -> no_sep comp = true ->
  Forall kept (norm_step (S n) acc comp).
Proof.
  intros Hacc Hcomp. unfold norm_step.
  destruct (String.eqb_spec comp "") as [E1|E1]; [assumption|].
  destruct (String.eqb_spec comp dot) as [E2|E2]; [assumption|].
  cbn [orb]. rewrite (kept_last acc Hacc), andb_false_r. cbn [andb Nat.eqb orb].
  destruct (String.eqb_spec comp dotdot) as [E3|E3]; cbn [negb orb].
  - destruct (is_empty acc); cbn [negb]; [assumption|].
    now apply Forall_removelast.
  - apply Forall_app. split; [assumption|].
    repeat constructor; assumption.
Qed.

Lemma fold_kept (n : nat) (comps acc : list string) :
  Forall kept acc -> Forall (fun c => no_sep c = true) comps ->
  Forall kept (fold_left (norm_step (S n)) comps acc).
Proof.
  revert acc. induction comps as [|c comps IH]; intros acc Hacc Hcomps;
    simpl; [assumption|].
  inversion Hcomps; subst. apply IH; [|assumption].
  now apply norm_step_kept.
Qed.

Lemma norm_step_append (n : nat) (acc : list string) (c : string) :
  kept c -> norm_step n acc c = (acc ++ [c])%list.
Proof.
  intros (H1 & H2 & H3 & _). unfold norm_step.
  apply String.eqb_neq in H1, H2, H3. now rewrite H1, H2, H3.
Qed.

Lemma fold_append (n : nat) (cs acc : list string) :
  Forall kept cs -> fold_left (norm_step n) cs acc = (acc ++ cs)%list.
Proof.
  revert acc. induction cs as [|c cs IH]; intros acc H; simpl.
  - now rewrite app_nil_r.
  - inversion H; subst. rewrite norm_step_append, IH by assumption.
    now rewrite <- app_assoc.
Qed.

Lemma initial_slashes_rooted (path : string) :
  exists n, initial_slashes (String sep path) = S n.
Proof.
  unfold initial_slashes.
  change (Str.startswith (String sep path) "/") with true.
  cbn iota.
  destruct (Str.startswith _ "//" && _); eauto.
Qed.

Lemma components_kept (path : string) : Forall kept (components path).
Proof.
  unfold components. change ("/" ++ path) with (String sep path).
  destruct (initial_slashes_rooted path) as (n & ->).
  apply fold_kept; [constructor | apply split_no_sep].
Qed.

Lemma join_not_rooted (cs : list string) :
  Forall kept cs -> Str.lstrip sep (Str.join sep cs) = Str.join sep cs.
Proof.
  intros H. destruct cs as [|c cs]; [reflexivity|].
  inversion H as [|? ? (Hne & _ & _ & Hsep) _]; subst.
  destruct c as [|x c]; [contradiction|].
  simpl in Hsep. apply andb_prop in Hsep as [Hx _].
  apply negb_true_iff in Hx.
  destruct cs as [|d cs]; [unfold Str.join | rewrite join_cons];
    simpl; now rewrite Hx.
Qed.

Lemma join_relative (cs : list string) :
  Forall kept cs -> isabs (Str.join sep cs) = false.
Proof.
  intros H. destruct cs as [|c cs]; [reflexivity|].
  inversion H as [|? ? (Hne & _ & _ & Hsep) _]; subst.
  destruct c as [|x c]; [contradiction|].
  simpl in Hsep. apply andb_prop in Hsep as [Hx _].
  apply negb_true_iff in Hx.
  unfold isabs.
  destruct cs as [|d cs]; [unfold Str.join | rewrite join_cons];
    unfold sep in *; simpl; now rewrite Hx.
Qed.

Lemma lstrip_rooted (n : nat) (cs : list string) :
  Forall kept cs ->
  Str.lstrip sep (Str.repeat sep n ++ Str.join sep cs) = Str.join sep cs.
Proof.
  intros H. induction n as [|n IH]; simpl.
  - now apply join_not_rooted.
  - exact IH.
Qed.

Lemma normpath_rooted (path : string) :
  normpath ("/" ++ path)
  = Str.repeat sep (initial_slashes ("/" ++ path))
    ++ Str.join sep (components path).
Proof.
  unfold normpath, components. change ("/" ++ path) with (String sep path).
  destruct (initial_slashes_rooted path) as (n & ->).
  reflexivity.
Qed.

(** What [sanitize_path] computes, in terms of the kept components. *)
Lemma sanitize_path_eq (path : string) :
  sanitize_path path
  = if (String.length (Str.join sep (components path)) <? 255)%nat
    then Ok (Str.join sep (components path))
    else Raise AssertionError.
Proof.
  unfold sanitize_path.
  now rewrite normpath_rooted, (lstrip_rooted _ _ (components_kept path)).
Qed.

Lemma components_join (cs : list string) :
  Forall kept cs -> components (Str.join sep cs) = cs.
Proof.
  intros H. unfold components.
  destruct cs as [|c cs]; [reflexivity|].
  rewrite split_join; [now apply fold_append | | discriminate].
  eapply Forall_impl; [|exact H]. now intros a (_ & _ & _ & Ha).
Qed.

Lemma split_kept_join (cs : list string) :
  Forall kept cs ->
  Forall (fun c => c <> dotdot) (Str.split sep (Str.join sep cs)).
Proof.
  intros H. destruct cs as [|c cs].
  - repeat constructor. discriminate.
  - rewrite split_join; [| | discriminate].
    + eapply Forall_impl; [|exact H]. now intros a (_ & _ & Ha & _).
    + eapply Forall_impl; [|exact H]. now intros a (_ & _ & _ & Ha).
Qed.

Lemma no_leading_dotdot (s : string) :
  Forall (fun c => c <> dotdot) (Str.split sep s) ->
  leading_dotdot s = false.
Proof.
  unfold leading_dotdot. intros H.
  destruct (Str.split sep s) as [|c cs]; [reflexivity|].
  inversion H; subst. now apply String.eqb_neq.
Qed.

End PathFacts.

(** C3 (as amended): a path whose normalized form is shorter than 255
    characters, so every path shorter than 255 characters, makes
    [sanitize_path] return a relative path, without a leading separator and
    without a [..] component, shorter than 255 characters; on the other
    paths the assertion fails and nothing is returned.
    [sanitize_path("../../etc/passwd")] is ["etc/passwd"]. *)
Theorem sanitize_path_relative :
  (forall path : string,
      let s_path := Str.lstrip Posixpath.sep (Posixpath.normpath ("/" ++ path)) in
      (String.length s_path < 255 -> sanitize_path path = Ok s_path)
      /\ (255 <= String.length s_path -> sanitize_path path = Raise AssertionError)
      /\ String.length s_path <= String.length path)
  /\ (forall path r : string,
        sanitize_path path = Ok r ->
        Posixpath.isabs r = false
        /\ leading_dotdot r = false
        /\ Forall (fun c => c <> Posixpath.dotdot) (Str.split Posixpath.sep r)
        /\ String.length r < 255)
  /\ sanitize_path "../../etc/passwd" = Ok "etc/passwd".
Proof.
  split; [|split].
  - intros path s_path.
    assert (E : s_path = Str.join Posixpath.sep (components path)).
    { unfold s_path.
      now rewrite normpath_rooted, (lstrip_rooted _ _ (components_kept path)). }
    rewrite sanitize_path_eq, E.
    repeat split.
    + intros H. apply Nat.ltb_lt in H. now rewrite H.
    + intros H. apply Nat.ltb_ge in H. now rewrite H.
    + apply components_length.
  - intros path r. rewrite sanitize_path_eq.
    destruct (Nat.ltb_spec (String.length (Str.join Posixpath.sep (components path))) 255)
      as [Hlt|Hge]; [|discriminate].
    intros E. inversion E; subst r.
    pose proof (components_kept path) as K.
    repeat split.
    + now apply join_relative.
    + now apply no_leading_dotdot, split_kept_join.
    + now apply split_kept_join.
    + exact Hlt.
  - reflexivity.
Qed.

Lemma sanitize_path_relative_witness :
  sanitize_path "a/../../b/./c//" = Ok "b/c"
  /\ leading_dotdot "b/c" = false.
Proof.
  destruct sanitize_path_relative as (Hret & Hprop & _).
  assert (E : sanitize_path "a/../../b/./c//" = Ok "b/c").
  { apply (Hret "a/../../b/./c//"). vm_compute. lia. }
  split; [exact E|].
  apply (Hprop "a/../../b/./c//" "b/c" E).
Defined.

(** C3 as stated fails: a path of 255 letters is not shortened by the
    normalization, the assertion fails and [sanitize_path] returns
    nothing. *)
Lemma sanitize_path_long_name_raises :
  sanitize_path (Str.repeat "a" 255) = Raise AssertionError
  /\ ~ (exists r, sanitize_path (Str.repeat "a" 255) = Ok r
                  /\ String.length r < 255).
Proof.
  assert (E : sanitize_path (Str.repeat "a" 255) = Raise AssertionError)
    by (vm_compute; reflexivity).
  split; [exact E|].
  intros (r & Hr & _). rewrite E in Hr. discriminate.
Qed.

(** C7: [sanitize_path] is idempotent: on a result [r] of [sanitize_path],
    [sanitize_path] returns [r] again. *)
Theorem sanitize_path_idempotent (p r : string) :
  sanitize_path p = Ok r -> sanitize_path r = Ok r.
Proof.
  rewrite sanitize_path_eq.
  destruct (String.length (Str.join Posixpath.sep (components p)) <? 255)%nat
    eqn:Hlt; [|discriminate].
  intros E. inversion E; subst r.
  rewrite sanitize_path_eq, (components_join _ (components_kept p)).
  now rewrite Hlt.
Qed.

Lemma sanitize_path_idempotent_witness :
  sanitize_path "../../etc/passwd" = Ok "etc/passwd"
  /\ sanitize_path "etc/passwd" = Ok "etc/passwd".
Proof.
  split; [reflexivity|].
  apply (sanitize_path_idempotent "../../etc/passwd" "etc/passwd").
  reflexivity.
Defined.

(** ** The matcher finds the matches *)

Section MatcherFacts.
Import Re.
Variable ignorecase : bool.

Lemma one_char_finds (ok : ascii -> bool) : finds (one_char ok) (consumes ok).
Proof.
  intros [n s] k. unfold one_char, consumes. simpl. split.
  - destruct s as [|c rest]; [discriminate|].
    destruct (ok c) eqn:E; [|discriminate].
    intros Hk. exists (S n, rest). split; [|exact Hk]. now exists c, rest.
  - intros (st' & (c & rest & -> & Hc & ->) & Hk). now rewrite Hc.
Qed.

Lemma at_most_finds step R (extra : nat) :
  finds step R ->
  forall st k,
    at_most step extra st k = true <->
    exists n st', n <= extra /\ iter R n st st' /\ k st' = true.
Proof.
  intros Hstep. induction extra as [|extra IH]; intros st k; simpl.
  - split.
    + intros Hk. exists 0, st. simpl. auto.
    + intros (n & st' & Hn & Hi & Hk).
      assert (n = 0) by lia; subst n. simpl in Hi. now subst st'.
  - destruct (step st (fun st' => at_most step extra st' k)) eqn:E.
    + split; [intros _ | reflexivity].
      apply Hstep in E as (mid & Hmid & Hrest).
      apply IH in Hrest as (n & st' & Hn & Hi & Hk).
      exists (S n), st'. repeat split; [lia | | exact Hk].
      simpl. eauto.
    + split.
      * intros Hk. exists 0, st. simpl. repeat split; [lia | exact Hk].
      * intros (n & st' & Hn & Hi & Hk).
        destruct n as [|n]; simpl in Hi; [now subst st'|].
        destruct Hi as (mid & Hmid & Hi).
        assert (Habs : step st (fun st' => at_most step extra st' k) = true).
        { apply Hstep. exists mid. split; [exact Hmid|].
          apply IH. exists n, st'. repeat split; [lia | exact Hi | exact Hk]. }
        rewrite Habs in E. discriminate.
Qed.

Lemma times_finds step R (lo extra : nat) :
  finds step R ->
  forall st k,
    times step lo extra st k = true <->
    exists n st',
      lo <= n /\ n <= lo + extra /\ iter R n st st' /\ k st' = true.
Proof.
  intros Hstep. induction lo as [|lo IH]; intros st k; simpl.
  - rewrite (at_most_finds step R extra Hstep). split.
    + intros (n & st' & Hn & H). exists n, st'. repeat split; try lia; apply H.
    + intros (n & st' & _ & Hn & H). exists n, st'. split; [lia | exact H].
  - rewrite (Hstep st). split.
    + intros (mid & Hmid & Hrest).
      apply IH in Hrest as (n & st' & Hlo & Hhi & Hi & Hk).
      exists (S n), st'. repeat split; try lia; [|exact Hk].
      simpl. eauto.
    + intros (n & st' & Hlo & Hhi & Hi & Hk).
      destruct n as [|n]; [lia|]. simpl in Hi.
      destruct Hi as (mid & Hmid & Hi).
      exists mid. split; [exact Hmid|].
      apply IH. exists n, st'. repeat split; try lia; assumption.
Qed.

Lemma iter_forward R (n : nat) :
  forward R -> forward (iter R n).
Proof.
  intros HR. induction n as [|n IH]; intros st st'; simpl.
  - auto.
  - intros (mid & Hmid & Hi).
    destruct (HR _ _ Hmid) as [-> | H1]; destruct (IH _ _ Hi) as [-> | H2];
      auto; right; lia.
Qed.

Lemma spans_forward (r : regex) : forward (spans ignorecase r).
Proof.
  induction r as [| c | items | r1 IH1 r2 IH2 | r1 IH1 r2 IH2 | lo hi r IH | |];
    intros st st'; simpl.
  - auto.
  - intros (c' & rest & E & _ & ->). right. rewrite E. simpl. lia.
  - intros (c' & rest & E & _ & ->). right. rewrite E. simpl. lia.
  - intros (mid & H1 & H2).
    destruct (IH1 _ _ H1) as [-> | L1]; destruct (IH2 _ _ H2) as [-> | L2];
      auto; right; lia.
  - intros [H | H]; auto.
  - intros (n & _ & Hi). exact (iter_forward _ n IH _ _ Hi).
  - intros (_ & ->). auto.
  - intros (_ & ->). auto.
Qed.

(** The turns that consume nothing can be left out of a repetition, down to
    the compulsory ones: what is left fits in the length of the subject. *)
Lemma iter_short R (n : nat) :
  forward R ->
  forall lo st st',
    lo <= n -> iter R n st st' ->
    exists m, lo <= m /\ m <= lo + String.length (snd st) /\ iter R m st st'.
Proof.
  intros HR. induction n as [|n IH]; intros lo st st' Hlo Hi.
  - exists 0. repeat split; [lia | lia | exact Hi].
  - simpl in Hi. destruct Hi as (mid & Hmid & Hi).
    destruct lo as [|lo].
    + destruct (IH 0 mid st' (Nat.le_0_l n) Hi) as (m & _ & Hm & Hi').
      destruct (HR _ _ Hmid) as [-> | Hlt].
      * exists m. repeat split; [lia | exact Hm | exact Hi'].
      * exists (S m). repeat split; [lia | simpl in *; lia |].
        simpl. eauto.
    + destruct (IH lo mid st' (le_S_n _ _ Hlo) Hi) as (m & Hlo' & Hm & Hi').
      exists (S m).
      assert (String.length (snd mid) <= String.length (snd st))
        by (destruct (HR _ _ Hmid) as [-> | Hlt]; lia).
      repeat split; [lia | lia |]. simpl. eauto.
Qed.

(** The matcher answers [true] exactly when the pattern spans a part of the
    subject after which the continuation succeeds. *)
Lemma exec_finds (r : regex) : finds (exec ignorecase r) (spans ignorecase r).
Proof.
  induction r as [| c | items | r1 IH1 r2 IH2 | r1 IH1 r2 IH2 | lo hi r IH | |];
    intros st k; simpl.
  - split; [eauto | now intros (st' & -> & Hk)].
  - apply one_char_finds.
  - apply one_char_finds.
  - rewrite (IH1 st). split.
    + intros (mid & H1 & H2). apply IH2 in H2 as (st' & H2 & Hk). eauto.
    + intros (st' & (mid & H1 & H2) & Hk). exists mid. split; [exact H1|].
      apply IH2. eauto.
  - destruct (exec ignorecase r1 st k) eqn:E1.
    + split; [intros _ | reflexivity].
      apply IH1 in E1 as (st' & H1 & Hk). eauto.
    + rewrite (IH2 st). split.
      * intros (st' & H2 & Hk). eauto.
      * intros (st' & [H1 | H2] & Hk); [|eauto].
        assert (Habs : exec ignorecase r1 st k = true) by (apply IH1; eauto).
        rewrite Habs in E1. discriminate.
  - rewrite (times_finds _ _ lo _ IH). unfold within. split.
    + intros (n & st' & Hlo & Hhi & Hi & Hk). exists st'. split; [|exact Hk].
      exists n. repeat split; [exact Hlo | | exact Hi].
      now destruct hi.
    + intros (st' & (n & (Hlo & Hhi) & Hi) & Hk).
      destruct hi as [h|].
      * exists n, st'. auto.
      * destruct (iter_short _ n (spans_forward r) lo st st' Hlo Hi)
          as (m & Hm1 & Hm2 & Hi').
        exists m, st'. auto.
  - destruct (Nat.eqb_spec (fst st) 0) as [E|E].
    + split; [eauto | now intros (st' & (_ & ->) & Hk)].
    + split; [discriminate | now intros (st' & (E' & _) & _)].
  - destruct (at_end (snd st)).
    + split; [eauto | now intros (st' & (_ & ->) & Hk)].
    + split; [discriminate | now intros (st' & (E' & _) & _)].
Qed.

Lemma matches_spans (pattern : regex) (s : string) :
  matches ignorecase pattern s = true <->
  exists st', spans ignorecase pattern (0, s) st'.
Proof.
  unfold matches. rewrite (exec_finds pattern (0, s)). split.
  - intros (st' & H & _). eauto.
  - intros (st' & H). eauto.
Qed.

End MatcherFacts.

(** ** Properties of the path validators *)

Section PathValidators.
Variable fs : filesystem.

Lemma normpath_truthy (p : string) : truthy_str (Posixpath.normpath p) = true.
Proof.
  unfold Posixpath.normpath.
  destruct (p =? ""); [reflexivity|]. cbv zeta.
  match goal with
  | |- truthy_str (if truthy_str ?x then _ else _) = true =>
      destruct (truthy_str x) eqn:E; [exact E | reflexivity]
  end.
Qed.

Lemma abspath_truthy (p : string) : truthy_str (abspath fs p) = true.
Proof. apply normpath_truthy. Qed.

(** The check both validators make of a string. *)
Lemma validate_str (s : string) :
  validate [Rule4 (VStr s) (Single ty_str) (Some 0%Z) (Some 255%Z)]
  = if (255 <=? String.length s)%nat then Raise too_long else Ok tt.
Proof.
  rewrite validate_one. unfold validate_rule, bind. cbn -[Z.ltb Z.geb Nat.leb].
  destruct (Z.ltb_spec (Z.of_nat (String.length s)) 0); [lia|].
  rewrite Z.geb_leb.
  destruct (Z.leb_spec 255 (Z.of_nat (String.length s)));
    destruct (Nat.leb_spec 255 (String.length s)); try lia; reflexivity.
Qed.

Lemma validate_not_str (v : pyval) :
  type_of v <> ty_str ->
  validate [Rule4 v (Single ty_str) (Some 0%Z) (Some 255%Z)]
  = Raise (TypeError "Expected type str").
Proof.
  intros H. rewrite validate_one.
  destruct v; try reflexivity. now contradiction H.
Qed.

Lemma validate_existing_filepath_eq (arg : pyval) :
  validate_existing_filepath fs arg
  = match arg with
    | VStr p =>
        if (255 <=? String.length p)%nat then Raise too_long
        else if isfile fs p then Ok arg
             else Raise (ValueError (p ++ " does not exist."))
    | _ => Raise (TypeError "Expected type str")
    end.
Proof.
  unfold validate_existing_filepath.
  destruct arg as [| b | n | p | l];
    try (rewrite validate_not_str by discriminate; reflexivity).
  rewrite validate_str.
  destruct (255 <=? String.length p)%nat; [reflexivity|].
  simpl. now destruct (isfile fs p).
Qed.

Lemma validate_existing_directory_eq (p : string) :
  validate_existing_directory fs (VStr p)
  = if (255 <=? String.length (abspath fs p))%nat then Raise too_long
    else if isdir fs (abspath fs p) then Ok (abspath fs p)
         else Raise (ValueError (abspath fs p ++ " does not exist")).
Proof.
  unfold validate_existing_directory. cbn [fspath bind].
  rewrite validate_str.
  destruct (255 <=? String.length (abspath fs p))%nat; [reflexivity|].
  simpl. now destruct (isdir fs (abspath fs p)).
Qed.

Lemma validate_existing_directory_truthy (arg : pyval) (d : string) :
  validate_existing_directory fs arg = Ok d -> truthy_str d = true.
Proof.
  destruct arg as [| b | n | p | l]; try discriminate.
  rewrite validate_existing_directory_eq.
  destruct (255 <=? _)%nat; [discriminate|].
  destruct (isdir fs _); [|discriminate].
  intros E. inversion E. apply abspath_truthy.
Qed.

End PathValidators.

(** C6: [validate_existing_filepath] first checks that its argument is a
    string whose length is at least 0 and below 255, then raises a
    [ValueError] that names the path when no file is there, and returns the
    path otherwise; [validate_existing_filepath("/nonexistent/file.txt")]
    fails with a [ValueError]. *)
Theorem validate_existing_filepath_checks (fs : filesystem) :
  (forall arg : pyval,
      type_of arg <> ty_str ->
      validate_existing_filepath fs arg = Raise (TypeError "Expected type str"))
  /\ (forall p : string,
        255 <= String.length p ->
        validate_existing_filepath fs (VStr p) = Raise too_long)
  /\ (forall p : string,
        String.length p < 255 -> isfile fs p = false ->
        validate_existing_filepath fs (VStr p)
        = Raise (ValueError (p ++ " does not exist."))
        /\ names (p ++ " does not exist.") p)
  /\ (forall p : string,
        String.length p < 255 -> isfile fs p = true ->
        validate_existing_filepath fs (VStr p) = Ok (VStr p))
  /\ (isfile fs "/nonexistent/file.txt" = false ->
      validate_existing_filepath fs (VStr "/nonexistent/file.txt")
      = Raise (ValueError "/nonexistent/file.txt does not exist.")).
Proof.
  repeat split.
  - intros arg H. rewrite validate_existing_filepath_eq.
    destruct arg; try reflexivity. now contradiction H.
  - intros p H. rewrite validate_existing_filepath_eq.
    apply Nat.leb_le in H. now rewrite H.
  - rewrite validate_existing_filepath_eq.
    apply Nat.leb_gt in H. now rewrite H, H0.
  - exists "", " does not exist.". reflexivity.
  - intros p H Hf. rewrite validate_existing_filepath_eq.
    apply Nat.leb_gt in H. now rewrite H, Hf.
  - intros Hf. rewrite validate_existing_filepath_eq. simpl. now rewrite Hf.
Qed.

Lemma validate_existing_filepath_checks_witness :
  validate_existing_filepath fs_bare (VStr "/nonexistent/file.txt")
  = Raise (ValueError "/nonexistent/file.txt does not exist.")
  /\ validate_existing_filepath fs_srv (VStr "model.h5") = Ok (VStr "model.h5")
  /\ validate_existing_filepath fs_srv VNone
     = Raise (TypeError "Expected type str").
Proof.
  destruct (validate_existing_filepath_checks fs_bare) as (_ & _ & _ & _ & Hno).
  destruct (validate_existing_filepath_checks fs_srv) as (Hty & _ & _ & Hok & _).
  split; [apply Hno; reflexivity|].
  split; [apply Hok; [simpl; lia | reflexivity]|].
  apply Hty. discriminate.
Defined.

(** C9: on success [validate_existing_filepath] returns its argument as it
    was given.  [validate_existing_directory] absolutizes its argument
    before it validates anything: an argument that is not a path fails in
    [abspath], the length check bears on the absolute path and not on the
    argument, and the absolute path is what is returned. *)
Theorem existing_directory_absolutized (fs : filesystem) :
  (forall (arg r : pyval),
      validate_existing_filepath fs arg = Ok r -> r = arg)
  /\ (forall (arg : pyval),
        type_of arg <> ty_str ->
        validate_existing_directory fs arg
        = Raise (TypeError ("expected str, bytes or os.PathLike object, not "
                            ++ type_name (type_of arg))))
  /\ (forall p : string,
        255 <= String.length (abspath fs p) ->
        validate_existing_directory fs (VStr p) = Raise too_long)
  /\ (forall p : string,
        String.length (abspath fs p) < 255 ->
        validate_existing_directory fs (VStr p)
        = if isdir fs (abspath fs p) then Ok (abspath fs p)
          else Raise (ValueError (abspath fs p ++ " does not exist")))
  /\ (forall (p r : string),
        validate_existing_directory fs (VStr p) = Ok r -> r = abspath fs p)
  /\ (validate_existing_directory fs_deep (VStr "x") = Raise too_long
      /\ validate_existing_filepath fs_deep (VStr "x") = Ok (VStr "x"))
  /\ (validate_existing_directory fs_srv (VStr ("data" ++ Str.repeat "/" 300))
      = Ok "/srv/data"
      /\ validate_existing_filepath fs_srv (VStr ("data" ++ Str.repeat "/" 300))
         = Raise too_long).
Proof.
  split; [|split; [|split; [|split; [|split; [|split]]]]].
  - intros arg r. rewrite validate_existing_filepath_eq.
    destruct arg as [| b | n | p | l]; try discriminate.
    destruct (255 <=? String.length p)%nat; [discriminate|].
    destruct (isfile fs p); [|discriminate].
    intros E. now inversion E.
  - intros arg H. destruct arg; try reflexivity. now contradiction H.
  - intros p H. rewrite validate_existing_directory_eq.
    apply Nat.leb_le in H. now rewrite H.
  - intros p H. rewrite validate_existing_directory_eq.
    apply Nat.leb_gt in H. now rewrite H.
  - intros p r. rewrite validate_existing_directory_eq.
    destruct (255 <=? _)%nat; [discriminate|].
    destruct (isdir fs _); [|discriminate].
    intros E. now inversion E.
  - split; vm_compute; reflexivity.
  - split; vm_compute; reflexivity.
Qed.

Lemma existing_directory_absolutized_witness :
  validate_existing_directory fs_srv (VStr "data/../models") = Ok "/srv/models"
  /\ validate_existing_directory fs_srv (VInt 3)
     = Raise (TypeError "expected str, bytes or os.PathLike object, not int").
Proof.
  destruct (existing_directory_absolutized fs_srv) as (_ & Hty & _ & Habs & _).
  split.
  - apply (Habs "data/../models"). vm_compute. lia.
  - apply (Hty (VInt 3)). discriminate.
Defined.

(** C4 (as amended): [validate_parent_exists] resolves the absolute path and
    validates its parent directory with [validate_existing_directory]; it
    returns the absolute path when that validation succeeds, and the error
    of that validation leaves [validate_parent_exists] when it fails; a null
    result is never returned. *)
Theorem validate_parent_exists_propagates (fs : filesystem) :
  (forall (p d : string),
      validate_existing_directory fs
        (VStr (Posixpath.dirname (abspath fs (abspath fs p)))) = Ok d ->
      validate_parent_exists fs (VStr p) = Ok (VStr (abspath fs p)))
  /\ (forall (p : string) (e : exn),
        validate_existing_directory fs
          (VStr (Posixpath.dirname (abspath fs (abspath fs p)))) = Raise e ->
        validate_parent_exists fs (VStr p) = Raise e)
  /\ (forall arg : pyval, validate_parent_exists fs arg <> Ok VNone).
Proof.
  split; [|split].
  - intros p d H. unfold validate_parent_exists. cbn [fspath bind].
    rewrite H. cbn [bind].
    now rewrite (validate_existing_directory_truthy fs _ d H).
  - intros p e H. unfold validate_parent_exists. cbn [fspath bind].
    now rewrite H.
  - intros arg. unfold validate_parent_exists.
    destruct arg as [| b | n | p | l]; try discriminate.
    cbn [fspath bind].
    destruct (validate_existing_directory fs _) as [d|e] eqn:E;
      [|discriminate].
    cbn [bind].
    now rewrite (validate_existing_directory_truthy fs _ d E).
Qed.

Lemma validate_parent_exists_propagates_witness :
  validate_parent_exists fs_srv (VStr "out/../models/chunker.h5")
  = Ok (VStr "/srv/models/chunker.h5")
  /\ validate_parent_exists fs_bare (VStr "models/chunker.h5")
     = Raise (ValueError "/home/user/models does not exist").
Proof.
  split.
  - apply (proj1 (validate_parent_exists_propagates fs_srv)
             "out/../models/chunker.h5" "/srv/models").
    vm_compute. reflexivity.
  - apply (proj1 (proj2 (validate_parent_exists_propagates fs_bare))
             "models/chunker.h5").
    vm_compute. reflexivity.
Defined.

(** C4 as stated fails: when the parent directory does not exist, the
    [ValueError] of [validate_existing_directory] leaves
    [validate_parent_exists]; no null result is returned. *)
Lemma validate_parent_exists_raises :
  validate_existing_directory fs_bare
    (VStr (Posixpath.dirname (abspath fs_bare "models/chunker.h5")))
  = Raise (ValueError "/home/user/models does not exist")
  /\ validate_parent_exists fs_bare (VStr "models/chunker.h5")
     = Raise (ValueError "/home/user/models does not exist")
  /\ validate_parent_exists fs_bare (VStr "models/chunker.h5") <> Ok VNone.
Proof.
  split; [vm_compute; reflexivity|].
  split; [vm_compute; reflexivity|].
  vm_compute. discriminate.
Qed.

(** ** Properties of [validate_proxy_path] *)

(** C5: [validate_proxy_path] returns its argument when it is [None] or
    matches the pattern, and raises a [ValueError] for every string that
    does not match; ["http://localhost:8080/path"] is accepted,
    ["not-a-url"] is refused and [None] is returned as [None]. *)
Theorem validate_proxy_path_checks :
  (forall arg : option string,
      (arg = None
       \/ exists s, arg = Some s
                    /\ Re.matches true proxy_validation_regex s = true) ->
      validate_proxy_path arg = Ok arg)
  /\ (forall s : string,
        Re.matches true proxy_validation_regex s = false ->
        validate_proxy_path (Some s)
        = Raise (ValueError (s ++ " is not a valid proxy path")))
  /\ (forall s : string,
        validate_proxy_path (Some s) = Ok (Some s) <->
        exists st', Re.spans true proxy_validation_regex (0, s) st')
  /\ validate_proxy_path (Some "http://localhost:8080/path")
     = Ok (Some "http://localhost:8080/path")
  /\ validate_proxy_path (Some "not-a-url")
     = Raise (ValueError "not-a-url is not a valid proxy path")
  /\ validate_proxy_path None = Ok None.
Proof.
  split; [|split; [|split; [|split; [|split]]]].
  - intros arg [-> | (s & -> & Hs)]; [reflexivity|].
    unfold validate_proxy_path. now rewrite Hs.
  - intros s Hs. unfold validate_proxy_path. now rewrite Hs.
  - intros s. rewrite <- matches_spans. unfold validate_proxy_path.
    destruct (Re.matches true proxy_validation_regex s); simpl;
      split; intros H; try reflexivity; discriminate.
  - vm_compute. reflexivity.
  - vm_compute. reflexivity.
  - reflexivity.
Qed.

Lemma validate_proxy_path_checks_witness :
  validate_proxy_path (Some "https://proxy.example.com:911/")
  = Ok (Some "https://proxy.example.com:911/")
  /\ validate_proxy_path (Some "proxy.example.com:911")
     = Raise (ValueError "proxy.example.com:911 is not a valid proxy path").
Proof.
  destruct validate_proxy_path_checks as (Hok & Hno & _).
  split.
  - apply Hok. right. exists "https://proxy.example.com:911/".
    split; [reflexivity | vm_compute; reflexivity].
  - apply Hno. vm_compute. reflexivity.
Defined.

(** C10: whenever [validate_proxy_path] does not raise, it returns the
    argument it was given, [None] included. *)
Theorem validate_proxy_path_identity (arg r : option string) :
  validate_proxy_path arg = Ok r -> r = arg.
Proof.
  unfold validate_proxy_path.
  destruct arg as [s|].
  - destruct (negb (Re.matches true proxy_validation_regex s));
      [discriminate|].
    intros E. now inversion E.
  - intros E. now inversion E.
Qed.

Lemma validate_proxy_path_identity_witness :
  validate_proxy_path (Some "ftp://10.0.0.1:21") = Ok (Some "ftp://10.0.0.1:21")
  /\ Some "ftp://10.0.0.1:21" = Some "ftp://10.0.0.1:21".
Proof.
  assert (E : validate_proxy_path (Some "ftp://10.0.0.1:21")
              = Ok (Some "ftp://10.0.0.1:21")) by (vm_compute; reflexivity).
  split; [exact E|].
  apply (validate_proxy_path_identity (Some "ftp://10.0.0.1:21")
           (Some "ftp://10.0.0.1:21") E).
Defined.

(** ** Further properties of [validate] *)

Lemma validate_app (a b : list rule) :
  validate (a ++ b) = (validate a ;; validate b).
Proof.
  induction a as [|r a IH]; simpl; [reflexivity|].
  destruct (validate_rule r) as [[]|e]; simpl; [exact IH | reflexivity].
Qed.

(** X1: one call of [validate] with several rules does what successive calls
    with one rule each do: it returns when every rule passes on its own, and
    otherwise raises the exception of the first rule that fails, whatever
    the rules after it are. *)
Theorem validate_rules_in_order :
  (forall a b : list rule, validate (a ++ b) = (validate a ;; validate b))
  /\ (forall args : list rule,
        validate args = Ok tt <-> Forall (fun r => validate [r] = Ok tt) args)
  /\ (forall (passed : list rule) (r : rule) (rest : list rule) (e : exn),
        Forall (fun r => validate [r] = Ok tt) passed ->
        validate [r] = Raise e ->
        validate (passed ++ r :: rest) = Raise e).
Proof.
  assert (Hall : forall args : list rule,
             validate args = Ok tt
             <-> Forall (fun r => validate [r] = Ok tt) args).
  { induction args as [|r args IH].
    - split; [constructor | reflexivity].
    - change (r :: args) with ([r] ++ args)%list. rewrite validate_app.
      split.
      + destruct (validate [r]) as [[]|e] eqn:E; simpl; [|discriminate].
        intros H. constructor; [exact E | now apply IH].
      + intros H. inversion H as [|? ? Hr Hargs]; subst.
        rewrite Hr. simpl. now apply IH. }
  split; [exact validate_app | split; [exact Hall|]].
  intros passed r rest e Hp Hr.
  rewrite validate_app. apply Hall in Hp. rewrite Hp. cbn [bind].
  change (r :: rest) with ([r] ++ rest)%list.
  rewrite validate_app, Hr. reflexivity.
Qed.

Lemma validate_rules_in_order_witness :
  validate [Rule4 (VInt 5) (Single ty_int) (Some 1%Z) (Some 10%Z);
            Rule4 (VInt 10) (Single ty_int) (Some 1%Z) (Some 10%Z);
            Rule2 (VInt 1) (Single ty_str)]
  = Raise (ValueError "Value  must be less than 10").
Proof.
  apply (proj2 (proj2 validate_rules_in_order)
           [Rule4 (VInt 5) (Single ty_int) (Some 1%Z) (Some 10%Z)]
           (Rule4 (VInt 10) (Single ty_int) (Some 1%Z) (Some 10%Z))
           [Rule2 (VInt 1) (Single ty_str)]).
  - repeat constructor.
  - reflexivity.
Defined.

(** X2: bounds that leave no room refuse everything: when both bounds are
    given and the upper one is not above the lower one, every accepted value
    other than [None] raises a [ValueError]. *)
Theorem validate_empty_range (r : rule) (lo hi : Z) :
  (4 <= rule_len r)%nat ->
  isinstance (item0 r) (accepted (item1 r)) = true ->
  item0 r <> VNone ->
  item2 r = Some lo -> item3 r = Some hi -> (hi <= lo)%Z ->
  exists msg, validate [r] = Raise (ValueError msg).
Proof.
  intros Hlen Hty Hnone Hlo Hhi Hle.
  rewrite validate_one, (validate_rule_accepted r Hty).
  apply Nat.leb_le in Hlen. rewrite Hlen.
  replace (negb (is_None (item0 r))) with true
    by (destruct (item0 r); try reflexivity; now contradiction Hnone).
  apply range_check_raise. unfold out_of_range.
  destruct (Z_lt_dec (magnitude (item0 r)) lo).
  - left. eauto.
  - right. exists hi. split; [exact Hhi | lia].
Qed.

Lemma validate_empty_range_witness :
  exists msg,
    validate [Rule4 (VStr "abc") (Single ty_str) (Some 3%Z) (Some 3%Z)]
    = Raise (ValueError msg).
Proof.
  apply (validate_empty_range
           (Rule4 (VStr "abc") (Single ty_str) (Some 3%Z) (Some 3%Z)) 3 3);
    try reflexivity; discriminate.
Defined.

(** X3: a boolean passes for an [int] and is measured as 0 or 1:
    [validate((b, int, lo, hi))] returns exactly when [lo <= b < hi] with
    [True] read as 1 and [False] as 0, and never raises a [TypeError]. *)
Theorem validate_bool_as_int (b : bool) (lo hi : Z) :
  (validate [Rule4 (VBool b) (Single ty_int) (Some lo) (Some hi)] = Ok tt
   <-> (lo <= Z.b2z b < hi)%Z)
  /\ (forall msg,
        validate [Rule4 (VBool b) (Single ty_int) (Some lo) (Some hi)]
        <> Raise (TypeError msg)).
Proof.
  set (r := Rule4 (VBool b) (Single ty_int) (Some lo) (Some hi)).
  assert (E : validate [r] = range_check r).
  { rewrite validate_one. now rewrite (validate_rule_accepted r eq_refl). }
  rewrite E. split.
  - rewrite range_check_ok. unfold out_of_range, r. simpl.
    change (magnitude (VBool b)) with (Z.b2z b). split.
    + intros H.
      destruct (Z_lt_dec (Z.b2z b) lo); [exfalso; apply H; left; eauto|].
      destruct (Z_lt_dec (Z.b2z b) hi); [lia|].
      exfalso. apply H. right. exists hi. split; [reflexivity | lia].
    + intros H [(x & Ex & Hx) | (x & Ex & Hx)]; inversion Ex; subst; lia.
  - intros msg H. apply range_check_raises in H as (msg' & H). discriminate.
Qed.

Lemma validate_bool_as_int_witness :
  validate [Rule4 (VBool true) (Single ty_int) (Some 1%Z) (Some 10%Z)] = Ok tt.
Proof.
  apply (proj1 (validate_bool_as_int true 1 10)). simpl. lia.
Defined.

(** ** Further properties of [sanitize_path] *)

Section SanitizeFacts.
Import Posixpath.

(** Joining the pieces of a split gives the string back. *)
Lemma join_split (s : string) : Str.join sep (Str.split sep s) = s.
Proof.
  induction s as [|x s IH]; [reflexivity|]. simpl.
  destruct (Ascii.eqb_spec x sep) as [->|Hx].
  - destruct (Str.split sep s) as [|piece pieces] eqn:E.
    + now destruct (split_not_nil sep s).
    + rewrite join_cons. simpl. now rewrite IH.
  - destruct (Str.split sep s) as [|piece pieces] eqn:E.
    + now destruct (split_not_nil sep s).
    + destruct pieces as [|q pieces].
      * unfold Str.join in *. simpl in *. now rewrite IH.
      * rewrite join_cons in *. simpl. now rewrite IH.
Qed.

Lemma norm_step_rooted (n m : nat) (acc : list string) (comp : string) :
  norm_step (S n) acc comp = norm_step (S m) acc comp.
Proof. reflexivity. Qed.

Lemma fold_rooted (n m : nat) (comps acc : list string) :
  fold_left (norm_step (S n)) comps acc = fold_left (norm_step (S m)) comps acc.
Proof.
  revert acc. induction comps as [|c comps IH]; intros acc; simpl;
    [reflexivity | apply IH].
Qed.

(** The components kept do not depend on the number of leading slashes. *)
Lemma components_fold (path : string) :
  components path = fold_left (norm_step 1) (Str.split sep path) [].
Proof.
  unfold components. change ("/" ++ path) with (String sep path).
  destruct (initial_slashes_rooted path) as (n & ->).
  apply fold_rooted.
Qed.

Lemma components_skip (c path : string) :
  no_sep c = true ->
  norm_step 1 [] c = [] ->
  components (c ++ String sep path) = components path.
Proof.
  intros Hc Hstep. rewrite !components_fold, (split_app c path Hc).
  simpl. now rewrite Hstep.
Qed.

Lemma sanitize_path_components (p q : string) :
  components p = components q -> sanitize_path p = sanitize_path q.
Proof. intros E. now rewrite !sanitize_path_eq, E. Qed.

Lemma kept_no_sep (cs : list string) :
  Forall kept cs -> Forall (fun c => no_sep c = true) cs.
Proof. apply Forall_impl. now intros a (_ & _ & _ & Ha). Qed.

Lemma join_app (bs cs : list string) :
  bs <> [] -> cs <> [] ->
  Str.join sep (bs ++ cs) = Str.join sep bs ++ String sep (Str.join sep cs).
Proof.
  intros Hbs Hcs. induction bs as [|b bs IH]; [contradiction|].
  destruct bs as [|b' bs].
  - destruct cs as [|c cs]; [contradiction|]. reflexivity.
  - change ((b :: b' :: bs) ++ cs)%list with (b :: ((b' :: bs) ++ cs))%list.
    change ((b' :: bs) ++ cs)%list with (b' :: (bs ++ cs))%list.
    rewrite !join_cons.
    change (b' :: (bs ++ cs))%list with ((b' :: bs) ++ cs)%list.
    rewrite IH by discriminate. now rewrite append_assoc.
Qed.

(** A path of kept components followed by empty ones keeps the former. *)
Lemma components_join_slash (bs : list string) :
  Forall kept bs -> bs <> [] ->
  components (Str.join sep bs ++ String sep "") = bs.
Proof.
  intros H Hne. rewrite components_fold.
  replace (Str.join sep bs ++ String sep "")
    with (Str.join sep (bs ++ [""])) by (rewrite join_app; auto; discriminate).
  rewrite split_join.
  - rewrite fold_left_app, (fold_append 1 bs [] H). reflexivity.
  - apply Forall_app. split; [now apply kept_no_sep | repeat constructor].
  - now destruct bs.
Qed.

Lemma endswith_app (a b : string) (c : ascii) :
  b <> "" -> Str.endswith (a ++ b) c = Str.endswith b c.
Proof.
  intros Hb. induction a as [|x a IH]; [reflexivity|].
  simpl. destruct (a ++ b) eqn:E; [|exact IH].
  destruct a; [simpl in E; contradiction | discriminate].
Qed.

Lemma endswith_no_sep (s : string) :
  no_sep s = true -> Str.endswith s sep = false.
Proof.
  induction s as [|x s IH]; [reflexivity|]. simpl. intros H.
  apply andb_prop in H as [Hx Hs]. apply negb_true_iff in Hx.
  destruct s; [exact Hx | now apply IH].
Qed.

Lemma join_kept_endswith (bs : list string) :
  Forall kept bs -> bs <> [] -> Str.endswith (Str.join sep bs) sep = false.
Proof.
  intros H Hne. destruct bs as [|b bs] using rev_ind; [contradiction|].
  apply Forall_app in H as [_ Hb].
  inversion Hb as [|? ? (Hb1 & _ & _ & Hb2) _]; subst.
  destruct bs as [|b' bs].
  - now apply endswith_no_sep.
  - rewrite join_app by discriminate.
    change (String sep (Str.join sep [b])) with (String sep "" ++ b).
    rewrite <- append_assoc, endswith_app by assumption.
    now apply endswith_no_sep.
Qed.

Lemma join_kept_truthy (bs : list string) :
  Forall kept bs -> bs <> [] -> truthy_str (Str.join sep bs) = true.
Proof.
  intros H Hne. destruct bs as [|b bs]; [contradiction|].
  inversion H as [|? ? (Hb & _) _]; subst.
  destruct b; [contradiction|].
  destruct bs; [reflexivity | now rewrite join_cons].
Qed.

Lemma join_kept_relative (bs : list string) (tail : string) :
  Forall kept bs -> bs <> [] ->
  Str.startswith (Str.join sep bs ++ tail) "/" = false.
Proof.
  intros H Hne. destruct bs as [|b bs]; [contradiction|].
  inversion H as [|? ? (Hb & _ & _ & Hsep) _]; subst.
  destruct b as [|x b]; [contradiction|].
  simpl in Hsep. apply andb_prop in Hsep as [Hx _].
  apply negb_true_iff in Hx. unfold sep in Hx.
  destruct bs as [|b' bs]; [unfold Str.join | rewrite join_cons];
    simpl; now rewrite Hx.
Qed.

End SanitizeFacts.

(** X4: what [sanitize_path] returns is made of ordinary names only: every
    component between separators is a name that is not empty, not [.] and
    not [..], so the result has no doubled or trailing separator either;
    the only other result is the empty string. *)
Theorem sanitize_path_ordinary_names (path r : string) :
  sanitize_path path = Ok r ->
  r = "" \/ Forall kept (Str.split Posixpath.sep r).
Proof.
  rewrite sanitize_path_eq.
  destruct (String.length _ <? 255)%nat; [|discriminate].
  intros E. inversion E; subst r.
  pose proof (components_kept path) as K.
  destruct (components path) as [|c cs] eqn:Ec; [now left | right].
  rewrite split_join; [exact K | now apply kept_no_sep | discriminate].
Qed.

Lemma sanitize_path_ordinary_names_witness :
  Forall kept (Str.split Posixpath.sep "b/c").
Proof.
  destruct (sanitize_path_ordinary_names "a/../../b/./c//" "b/c" eq_refl)
    as [E | H]; [discriminate | exact H].
Defined.

(** X5: the paths [sanitize_path] returns unchanged are exactly the paths
    shorter than 255 characters that are empty or made of ordinary names
    separated by single separators. *)
Theorem sanitize_path_fixed_points (path : string) :
  sanitize_path path = Ok path <->
  (path = "" \/ Forall kept (Str.split Posixpath.sep path))
  /\ String.length path < 255.
Proof.
  split.
  - intros H. split.
    + revert H. rewrite sanitize_path_eq.
      destruct (String.length _ <? 255)%nat; [|discriminate].
      intros E. inversion E as [E']. rewrite E'.
      pose proof (components_kept path) as K.
      destruct (components path) as [|c cs] eqn:Ec;
        [left; now rewrite <- E' | right].
      rewrite <- E'.
      rewrite split_join; [exact K | now apply kept_no_sep | discriminate].
    + revert H. rewrite sanitize_path_eq.
      destruct (Nat.ltb_spec (String.length (Str.join Posixpath.sep
                                               (components path))) 255);
        [|discriminate].
      intros E. inversion E as [E']. now rewrite E' in *.
  - intros [[-> | K] Hlen]; [reflexivity|].
    rewrite <- (join_split path) at 1 2.
    rewrite sanitize_path_eq, (components_join _ K), join_split.
    apply Nat.ltb_lt in Hlen. now rewrite Hlen.
Qed.

Lemma sanitize_path_fixed_points_witness :
  sanitize_path "models/chunker.h5" = Ok "models/chunker.h5".
Proof.
  apply (proj2 (sanitize_path_fixed_points "models/chunker.h5")).
  split; [right | simpl; lia].
  repeat constructor; discriminate.
Defined.

(** X6: a separator, a [./] or a [../] put in front of a path changes
    nothing to what [sanitize_path] does with it. *)
Theorem sanitize_path_ignores_prefix (path : string) :
  sanitize_path ("/" ++ path) = sanitize_path path
  /\ sanitize_path ("./" ++ path) = sanitize_path path
  /\ sanitize_path ("../" ++ path) = sanitize_path path.
Proof.
  repeat split; apply sanitize_path_components.
  - exact (components_skip "" path eq_refl eq_refl).
  - exact (components_skip "." path eq_refl eq_refl).
  - exact (components_skip ".." path eq_refl eq_refl).
Qed.

(** X7: a sanitized path stays below the directory it is joined to: for a
    directory [base] given by its ordinary names from the root, the
    normalized join of [base] and a result of [sanitize_path] is [base]
    followed by the names of the result. *)
Theorem sanitize_path_confined (bs : list string) (path r : string) :
  Forall kept bs ->
  sanitize_path path = Ok r ->
  exists cs,
    Forall kept cs
    /\ r = Str.join Posixpath.sep cs
    /\ Posixpath.normpath
         (Posixpath.join ("/" ++ Str.join Posixpath.sep bs) r)
       = "/" ++ Str.join Posixpath.sep (bs ++ cs).
Proof.
  intros Hbs. rewrite sanitize_path_eq.
  destruct (String.length _ <? 255)%nat; [|discriminate].
  intros E. inversion E as [E']. clear E.
  pose proof (components_kept path) as Hcs.
  set (cs := components path) in *.
  exists cs. split; [exact Hcs | split; [reflexivity|]].
  assert (Hnorm : forall x,
             components x = (bs ++ cs)%list ->
             Str.startswith x "/" = false ->
             Posixpath.normpath ("/" ++ x)
             = "/" ++ Str.join Posixpath.sep (bs ++ cs)).
  { intros x Hx Hrel. rewrite normpath_rooted, Hx.
    unfold Posixpath.initial_slashes.
    change (Str.startswith ("/" ++ x) "/") with true.
    change (Str.startswith ("/" ++ x) "//") with (Str.startswith x "/").
    now rewrite Hrel. }
  unfold Posixpath.join.
  change (Str.startswith (Str.join Posixpath.sep cs) "/")
    with (Posixpath.isabs (Str.join Posixpath.sep cs)).
  rewrite (join_relative cs Hcs).
  destruct bs as [|b bs'] eqn:Eb.
  - (* base is the root *)
    simpl. apply Hnorm.
    + now apply components_join.
    + exact (join_relative cs Hcs).
  - rewrite <- Eb in *.
    assert (Hne : bs <> []) by (rewrite Eb; discriminate).
    change (truthy_str ("/" ++ Str.join Posixpath.sep bs)) with true.
    change ("/" ++ Str.join Posixpath.sep bs)
      with (String Posixpath.sep "" ++ Str.join Posixpath.sep bs).
    rewrite endswith_app
      by (intros Hj; pose proof (join_kept_truthy bs Hbs Hne) as T;
          rewrite Hj in T; discriminate).
    rewrite (join_kept_endswith bs Hbs Hne). cbn [negb orb].
    rewrite !append_assoc.
    change (String Posixpath.sep "" ++ ?x) with ("/" ++ x).
    apply Hnorm.
    + destruct cs as [|c cs'] eqn:Ec.
      * rewrite app_nil_r.
        exact (components_join_slash bs Hbs Hne).
      * rewrite <- Ec in *.
        change ("/" ++ Str.join Posixpath.sep cs)
          with (String Posixpath.sep (Str.join Posixpath.sep cs)).
        rewrite <- join_app by (auto; rewrite Ec; discriminate).
        apply components_join. apply Forall_app. now split.
    + exact (join_kept_relative bs _ Hbs Hne).
Qed.

Lemma sanitize_path_confined_witness :
  exists cs,
    Forall kept cs
    /\ "etc/passwd" = Str.join Posixpath.sep cs
    /\ Posixpath.normpath
         (Posixpath.join ("/" ++ Str.join Posixpath.sep ["srv"; "data"])
                         "etc/passwd")
       = "/" ++ Str.join Posixpath.sep (["srv"; "data"] ++ cs).
Proof.
  apply (sanitize_path_confined ["srv"; "data"] "../../etc/passwd").
  - repeat constructor; discriminate.
  - reflexivity.
Defined.

(** ** Further properties of the path validators *)

Section AbsoluteFacts.
Import Posixpath.

Lemma isabs_inv (p : string) : isabs p = true -> exists rest, p = "/" ++ rest.
Proof.
  unfold isabs. destruct p as [|x p]; [discriminate|]. simpl.
  destruct (Ascii.eqb_spec x "/") as [->|]; [|discriminate].
  intros _. now exists p.
Qed.

(** The normal form of a rooted path: one or two separators, then kept
    components. *)
Lemma normpath_rooted_form (rest : string) :
  exists k cs,
    (k = 1 \/ k = 2) /\ Forall kept cs
    /\ normpath ("/" ++ rest) = Str.repeat sep k ++ Str.join sep cs.
Proof.
  exists (initial_slashes ("/" ++ rest)), (components rest).
  split; [|split; [apply components_kept | apply normpath_rooted]].
  unfold initial_slashes. change (Str.startswith ("/" ++ rest) "/") with true.
  cbn iota. destruct (_ && _); auto.
Qed.

Lemma normal_form_fixed (k : nat) (cs : list string) :
  k = 1 \/ k = 2 -> Forall kept cs ->
  normpath (Str.repeat sep k ++ Str.join sep cs)
  = Str.repeat sep k ++ Str.join sep cs.
Proof.
  intros [-> | ->] H.
  - change (Str.repeat sep 1 ++ Str.join sep cs) with ("/" ++ Str.join sep cs).
    rewrite normpath_rooted, (components_join cs H).
    unfold initial_slashes.
    change (Str.startswith ("/" ++ Str.join sep cs) "/") with true.
    change (Str.startswith ("/" ++ Str.join sep cs) "//")
      with (isabs (Str.join sep cs)).
    now rewrite (join_relative cs H).
  - change (Str.repeat sep 2 ++ Str.join sep cs)
      with ("/" ++ (String sep (Str.join sep cs))).
    rewrite normpath_rooted.
    change (String sep (Str.join sep cs)) with ("" ++ String sep (Str.join sep cs)).
    rewrite (components_skip "" _ eq_refl eq_refl), (components_join cs H).
    unfold initial_slashes.
    change (Str.startswith ("/" ++ "" ++ String sep (Str.join sep cs)) "/")
      with true.
    change (Str.startswith ("/" ++ "" ++ String sep (Str.join sep cs)) "//")
      with true.
    change (Str.startswith ("/" ++ "" ++ String sep (Str.join sep cs)) "///")
      with (isabs (Str.join sep cs)).
    now rewrite (join_relative cs H).
Qed.

Lemma absolute_normal_form (k : nat) (cs : list string) :
  k = 1 \/ k = 2 -> Forall kept cs ->
  absolute_normal (Str.repeat sep k ++ Str.join sep cs).
Proof.
  intros Hk H. split; [|now apply normal_form_fixed].
  now destruct Hk as [-> | ->].
Qed.

Lemma absolute_normal_inv (p : string) :
  absolute_normal p ->
  exists k cs,
    (k = 1 \/ k = 2) /\ Forall kept cs
    /\ p = Str.repeat sep k ++ Str.join sep cs.
Proof.
  intros [Habs Hnorm]. destruct (isabs_inv p Habs) as (rest & ->).
  destruct (normpath_rooted_form rest) as (k & cs & Hk & Hcs & E).
  exists k, cs. rewrite <- E. auto.
Qed.

Section WithFs.
Variable fs : filesystem.
Hypothesis cwd_absolute : isabs (cwd fs) = true.

Lemma abspath_absolute_normal (p : string) : absolute_normal (abspath fs p).
Proof.
  unfold abspath.
  assert (H : exists rest,
             (if isabs p then p else join (cwd fs) p) = "/" ++ rest).
  { destruct (isabs p) eqn:Ep; [now apply isabs_inv|].
    destruct (isabs_inv _ cwd_absolute) as (c & Ec).
    unfold join. unfold isabs in Ep. rewrite Ep.
    destruct (_ || _); rewrite Ec;
      [exists (c ++ p) | exists (c ++ "/" ++ p)]; reflexivity. }
  destruct H as (rest & ->).
  destruct (normpath_rooted_form rest) as (k & cs & Hk & Hcs & ->).
  now apply absolute_normal_form.
Qed.

Lemma abspath_fixed (p : string) : absolute_normal p -> abspath fs p = p.
Proof. intros [Habs Hnorm]. unfold abspath. now rewrite Habs. Qed.

End WithFs.

Lemma rfind_from_none (c : string) (i : Z) :
  no_sep c = true -> Str.rfind_from sep c i = (-1)%Z.
Proof.
  revert i. induction c as [|x c IH]; intros i H; [reflexivity|].
  simpl in *. apply andb_prop in H as [Hx Hc]. apply negb_true_iff in Hx.
  now rewrite (IH _ Hc), Hx.
Qed.

Lemma rfind_from_last (x c : string) (i : Z) :
  no_sep c = true -> (0 <= i)%Z ->
  Str.rfind_from sep (x ++ String sep c) i = (i + Z.of_nat (String.length x))%Z.
Proof.
  intros Hc. revert i. induction x as [|y x IH]; intros i Hi.
  - simpl. rewrite (rfind_from_none c _ Hc). simpl. lia.
  - change ((String y x) ++ String sep c) with (String y (x ++ String sep c)).
    cbn [Str.rfind_from]. rewrite IH by lia.
    destruct (Z.leb_spec 0 (i + 1 + Z.of_nat (String.length x))); [|lia].
    cbn [String.length]. lia.
Qed.

Lemma substring_prefix (a b : string) :
  String.substring 0 (String.length a) (a ++ b) = a.
Proof.
  induction a as [|x a IH]; simpl; [now destruct b | now rewrite IH].
Qed.

Lemma rstrip_fixed (c : ascii) (x : string) :
  Str.endswith x c = false -> Str.rstrip c x = x.
Proof.
  induction x as [|y x IH]; [reflexivity|]. simpl.
  destruct x as [|z x].
  - intros ->. reflexivity.
  - intros H. rewrite (IH H). reflexivity.
Qed.

Lemma rstrip_snoc (c : ascii) (x : string) :
  Str.rstrip c (x ++ String c "") = Str.rstrip c x.
Proof.
  induction x as [|y x IH]; simpl.
  - now rewrite Ascii.eqb_refl.
  - now rewrite IH.
Qed.

Lemma rstrip_repeat (c : ascii) (n : nat) : Str.rstrip c (Str.repeat c n) = "".
Proof.
  induction n as [|n IH]; [reflexivity|]. simpl.
  now rewrite IH, Ascii.eqb_refl.
Qed.

(** [dirname] of a path whose last component has no separator. *)
Lemma dirname_last (x c : string) :
  no_sep c = true ->
  dirname (x ++ String sep c)
  = if (x ++ String sep "")
       =? Str.repeat sep (String.length (x ++ String sep ""))
    then x ++ String sep ""
    else Str.rstrip sep x.
Proof.
  intros Hc. unfold dirname, Str.rfind.
  rewrite (rfind_from_last x c 0 Hc) by lia.
  unfold Str.slice_to.
  replace (Z.to_nat (0 + Z.of_nat (String.length x) + 1))
    with (String.length (x ++ String sep ""))
    by (rewrite length_append; simpl; lia).
  replace (x ++ String sep c) with ((x ++ String sep "") ++ c)
    by (now rewrite append_assoc).
  rewrite substring_prefix.
  assert (T : truthy_str (x ++ String sep "") = true) by now destruct x.
  rewrite T. cbn [andb].
  destruct (_ =? _); cbn [negb]; [reflexivity|].
  apply rstrip_snoc.
Qed.

(** [dirname] of a path in normal form drops its last component. *)
Lemma dirname_normal_form (k : nat) (cs : list string) :
  k = 1 \/ k = 2 -> Forall kept cs ->
  dirname (Str.repeat sep k ++ Str.join sep cs)
  = Str.repeat sep k ++ Str.join sep (removelast cs).
Proof.
  intros Hk H. destruct cs as [|c cs] using rev_ind.
  - destruct Hk as [-> | ->]; reflexivity.
  - clear IHcs. rewrite removelast_last.
    apply Forall_app in H as [Hcs Hc].
    inversion Hc as [|? ? (_ & _ & _ & Hsep) _]; subst.
    destruct cs as [|b cs].
    + (* the only component *)
      change (Str.join sep ([] ++ [c])) with c.
      destruct Hk as [-> | ->].
      * change (Str.repeat sep 1 ++ c) with ("" ++ String sep c).
        now rewrite (dirname_last "" c Hsep).
      * change (Str.repeat sep 2 ++ c) with ("/" ++ String sep c).
        now rewrite (dirname_last "/" c Hsep).
    + assert (Hne : b :: cs <> []) by discriminate.
      rewrite join_app by (auto; discriminate).
      change (Str.join sep [c]) with c.
      rewrite <- append_assoc, (dirname_last _ c Hsep).
      set (x := Str.repeat sep k ++ Str.join sep (b :: cs)).
      assert (Hend : Str.endswith x sep = false).
      { unfold x. rewrite endswith_app.
        - now apply join_kept_endswith.
        - intros E. pose proof (join_kept_truthy _ Hcs Hne) as T.
          rewrite E in T. discriminate. }
      assert (Hx : x <> "").
      { unfold x. destruct Hk as [-> | ->]; discriminate. }
      destruct (String.eqb_spec (x ++ String sep "")
                  (Str.repeat sep (String.length (x ++ String sep ""))))
        as [E|E].
      * exfalso. apply (f_equal (Str.rstrip sep)) in E.
        rewrite rstrip_snoc, rstrip_repeat, (rstrip_fixed _ _ Hend) in E.
        contradiction.
      * now apply rstrip_fixed.
Qed.

Lemma Forall_kept_removelast (cs : list string) :
  Forall kept cs -> Forall kept (removelast cs).
Proof. apply Forall_removelast. Qed.

Lemma dirname_absolute_normal (p : string) :
  absolute_normal p -> absolute_normal (dirname p).
Proof.
  intros H. destruct (absolute_normal_inv p H) as (k & cs & Hk & Hcs & ->).
  rewrite (dirname_normal_form k cs Hk Hcs).
  apply absolute_normal_form; [exact Hk | now apply Forall_kept_removelast].
Qed.

End AbsoluteFacts.

Lemma validate_existing_directory_inv (fs : filesystem) (arg : pyval)
    (d : string) :
  validate_existing_directory fs arg = Ok d ->
  exists p, arg = VStr p /\ d = abspath fs p
            /\ String.length d < 255 /\ isdir fs d = true.
Proof.
  destruct arg as [| b | n | p | l]; try discriminate.
  rewrite validate_existing_directory_eq.
  destruct (Nat.leb_spec 255 (String.length (abspath fs p))); [discriminate|].
  destruct (isdir fs (abspath fs p)) eqn:Hd; [|discriminate].
  intros E. inversion E; subst d. exists p. auto.
Qed.

(** X8: seen from an absolute current directory, the path
    [validate_existing_directory] returns is absolute and in normal form
    (no [.], [..] or empty component), names an existing directory and is
    shorter than 255 characters. *)
Theorem existing_directory_normal (fs : filesystem) (arg : pyval) (d : string) :
  Posixpath.isabs (cwd fs) = true ->
  validate_existing_directory fs arg = Ok d ->
  absolute_normal d /\ isdir fs d = true /\ String.length d < 255.
Proof.
  intros Hcwd H.
  destruct (validate_existing_directory_inv fs arg d H)
    as (p & _ & -> & Hlen & Hdir).
  split; [now apply abspath_absolute_normal | auto].
Qed.

Lemma existing_directory_normal_witness :
  absolute_normal "/srv/models".
Proof.
  apply (existing_directory_normal fs_srv (VStr "data/../models") "/srv/models");
    reflexivity.
Defined.

(** X9: [validate_existing_directory] is idempotent: seen from an absolute
    current directory, a path it returned is returned again, unchanged, when
    it is validated once more. *)
Theorem existing_directory_idempotent (fs : filesystem) (arg : pyval)
    (d : string) :
  Posixpath.isabs (cwd fs) = true ->
  validate_existing_directory fs arg = Ok d ->
  validate_existing_directory fs (VStr d) = Ok d.
Proof.
  intros Hcwd H.
  destruct (validate_existing_directory_inv fs arg d H)
    as (p & _ & E & Hlen & Hdir).
  assert (Hfix : abspath fs d = d).
  { apply abspath_fixed. rewrite E. now apply abspath_absolute_normal. }
  rewrite validate_existing_directory_eq, Hfix, Hdir.
  apply Nat.leb_gt in Hlen. now rewrite Hlen.
Qed.

Lemma existing_directory_idempotent_witness :
  validate_existing_directory fs_srv (VStr "/srv/models") = Ok "/srv/models".
Proof.
  apply (existing_directory_idempotent fs_srv (VStr "data/../models"));
    reflexivity.
Defined.

(** X10: when [validate_parent_exists] returns, seen from an absolute
    current directory, the result is the absolute normal form of the
    argument and its parent directory, the [dirname] of the result, is an
    existing directory whose path is shorter than 255 characters; the
    length of the path itself is not bounded. *)
Theorem validate_parent_exists_parent (fs : filesystem) (arg r : pyval) :
  Posixpath.isabs (cwd fs) = true ->
  validate_parent_exists fs arg = Ok r ->
  exists p a,
    arg = VStr p /\ r = VStr a /\ a = abspath fs p
    /\ absolute_normal a
    /\ isdir fs (Posixpath.dirname a) = true
    /\ String.length (Posixpath.dirname a) < 255.
Proof.
  intros Hcwd. unfold validate_parent_exists.
  destruct arg as [| b | n | p | l]; try discriminate.
  cbn [fspath bind].
  pose proof (abspath_absolute_normal fs Hcwd p) as Ha.
  rewrite (abspath_fixed fs _ Ha).
  pose proof (dirname_absolute_normal _ Ha) as Hd.
  destruct (validate_existing_directory fs _) as [d|e] eqn:E; [|discriminate].
  cbn [bind]. rewrite (validate_existing_directory_truthy fs _ d E).
  intros R. inversion R; subst r.
  destruct (validate_existing_directory_inv fs _ d E)
    as (q & Eq & -> & Hlen & Hdir).
  inversion Eq; subst q.
  rewrite (abspath_fixed fs _ Hd) in Hlen, Hdir.
  exists p, (abspath fs p). auto 10.
Qed.

Lemma validate_parent_exists_parent_witness :
  exists p a,
    VStr "out/../models/chunker.h5" = VStr p
    /\ VStr "/srv/models/chunker.h5" = VStr a /\ a = abspath fs_srv p
    /\ absolute_normal a
    /\ isdir fs_srv (Posixpath.dirname a) = true
    /\ String.length (Posixpath.dirname a) < 255.
Proof.
  apply (validate_parent_exists_parent fs_srv); reflexivity.
Defined.

(** ** Properties of [validate_input_args] *)

Section InputArgsFacts.
Import Posixpath.

Lemma validate_hyperparameter (v : pyval) (hi : Z) :
  validate [Rule4 v (Single ty_int) (Some 1%Z) (Some hi)] = Ok tt
  <-> hyperparameter v hi.
Proof.
  unfold hyperparameter.
  set (r := Rule4 v (Single ty_int) (Some 1%Z) (Some hi)).
  change (isinstance v [ty_int]) with (isinstance (item0 r) (accepted (item1 r))).
  destruct (isinstance (item0 r) (accepted (item1 r))) eqn:Hty.
  - rewrite validate_one, (validate_rule_accepted r Hty).
    assert (Hv : negb (is_None (item0 r)) && (4 <=? rule_len r)%nat = true).
    { unfold r in *. simpl in *. now destruct v. }
    rewrite Hv, range_check_ok.
    assert (Hm : magnitude (item0 r) = int_value v).
    { unfold r in *. simpl in *. now destruct v. }
    rewrite Hm. unfold out_of_range, r. simpl. split.
    + intros H. split; [reflexivity|].
      destruct (Z_lt_dec (int_value v) 1); [exfalso; apply H; left; eauto|].
      destruct (Z_lt_dec (int_value v) hi); [lia|].
      exfalso. apply H. right. exists hi. split; [reflexivity | lia].
    + intros [_ H] [(x & Ex & Hx) | (x & Ex & Hx)]; inversion Ex; subst; lia.
  - rewrite validate_one, (validate_rule_rejected r Hty).
    split; [discriminate | now intros [? _]].
Qed.

(** A plain file name put in an absolute normal directory. *)
Lemma join_directory_name (d name : string) :
  absolute_normal d -> kept name ->
  absolute_normal (join d name) /\ dirname (join d name) = d.
Proof.
  intros Hd Hname.
  destruct (absolute_normal_inv d Hd) as (k & cs & Hk & Hcs & ->).
  assert (Hall : Forall kept (cs ++ [name])).
  { apply Forall_app. split; [exact Hcs|].
    constructor; [exact Hname | constructor]. }
  assert (E : join (Str.repeat sep k ++ Str.join sep cs) name
              = Str.repeat sep k ++ Str.join sep (cs ++ [name])).
  { unfold join.
    change (Str.startswith name "/") with (isabs (Str.join sep [name])).
    rewrite (join_relative [name])
      by (constructor; [exact Hname | constructor]).
    destruct cs as [|c cs'] eqn:Ec.
    - destruct Hk as [-> | ->]; reflexivity.
    - rewrite <- Ec in *.
      assert (Hne : cs <> []) by (rewrite Ec; discriminate).
      assert (T : truthy_str (Str.repeat sep k ++ Str.join sep cs) = true)
        by (destruct Hk as [-> | ->]; reflexivity).
      rewrite T, endswith_app, (join_kept_endswith cs Hcs Hne).
      + cbn [negb orb]. rewrite join_app by (auto; discriminate).
        now rewrite append_assoc.
      + intros Hj. pose proof (join_kept_truthy cs Hcs Hne) as T'.
        rewrite Hj in T'. discriminate. }
  rewrite E. split.
  - now apply absolute_normal_form.
  - rewrite (dirname_normal_form k _ Hk Hall). now rewrite removelast_last.
Qed.

Lemma validate_parent_exists_name (fs : filesystem) (d name : string) :
  isabs (cwd fs) = true -> absolute_normal d -> kept name ->
  validate_parent_exists fs (VStr (join d name))
  = (validate_existing_directory fs (VStr d) ;; Ok (VStr (join d name))).
Proof.
  intros Hcwd Hd Hname.
  destruct (join_directory_name d name Hd Hname) as [Hm Hdir].
  unfold validate_parent_exists. cbn [fspath bind].
  rewrite !(abspath_fixed fs _ Hm), Hdir.
  destruct (validate_existing_directory fs (VStr d)) as [d'|e] eqn:E;
    [|reflexivity].
  cbn [bind]. now rewrite (validate_existing_directory_truthy fs _ d' E).
Qed.

End InputArgsFacts.

Lemma validate_input_args_iff (fs : filesystem) (script : string)
    (args : chunker_args) (m_path s_path : string) :
  validate_input_args fs script args = Ok (m_path, s_path)
  <-> hyperparameters_ok args
      /\ m_path = Posixpath.join (Posixpath.dirname script) (model_name args)
      /\ s_path = Posixpath.join (Posixpath.dirname script) (settings args)
      /\ is_Ok (validate_parent_exists fs (VStr m_path)) = true
      /\ is_Ok (validate_parent_exists fs (VStr s_path)) = true.
Proof.
  unfold validate_input_args, hyperparameters_ok.
  repeat match goal with
         | |- context [validate [Rule4 ?v (Single ty_int) (Some 1%Z) (Some ?hi)]] =>
             let H := fresh "H" in
             pose proof (validate_hyperparameter v hi) as H;
             destruct (validate [Rule4 v (Single ty_int) (Some 1%Z) (Some hi)])
               as [[]|?]; cbn [bind];
             [ apply proj1 in H; specialize (H eq_refl)
             | split; [discriminate | intros Habs; exfalso;
                 assert (Hd : @Raise unit e = Ok tt) by (apply H; tauto);
                 discriminate ] ]
         end.
  destruct (validate_parent_exists fs (VStr (Posixpath.join _ (model_name args))))
    as [r1|e1] eqn:E1; cbn [bind].
  - destruct (validate_parent_exists fs (VStr (Posixpath.join _ (settings args))))
      as [r2|e2] eqn:E2; cbn [bind].
    + split.
      * intros E. inversion E; subst. rewrite E1, E2. tauto.
      * intros (_ & -> & -> & _). reflexivity.
    + split; [discriminate|].
      intros (_ & _ & -> & _ & Hs). rewrite E2 in Hs. discriminate.
  - split; [discriminate|].
    intros (_ & -> & _ & Hm & _). rewrite E1 in Hm. discriminate.
Qed.

(** X11: [validate_input_args] returns exactly when the eight
    hyperparameters are integers in their ranges, the upper bounds being
    excluded, and [validate_parent_exists] accepts both paths; what it
    returns is the two names joined to the directory of the script, not
    the absolute paths that were validated. *)
Theorem validate_input_args_returns (fs : filesystem) (script : string)
    (args : chunker_args) (m_path s_path : string) :
  validate_input_args fs script args = Ok (m_path, s_path)
  <-> hyperparameters_ok args
      /\ m_path = Posixpath.join (Posixpath.dirname script) (model_name args)
      /\ s_path = Posixpath.join (Posixpath.dirname script) (settings args)
      /\ is_Ok (validate_parent_exists fs (VStr m_path)) = true
      /\ is_Ok (validate_parent_exists fs (VStr s_path)) = true.
Proof. apply validate_input_args_iff. Qed.

Lemma validate_input_args_returns_witness :
  validate_input_args fs_srv "/srv/chunker/train.py" default_args
  = Ok ("/srv/chunker/chunker", "/srv/chunker/chunker_settings").
Proof.
  apply (proj2 (validate_input_args_returns fs_srv "/srv/chunker/train.py"
                  default_args _ _)).
  unfold hyperparameters_ok, hyperparameter.
  repeat split; first [ cbn [int_value default_args sentence_len lstm_depth
                               lstm_hidden_size token_embedding_size
                               pos_embedding_size vocab_size char_hidden_size
                               max_char_word_length]; lia
                      | vm_compute; reflexivity
                      | vm_compute; lia ].
Defined.

(** X12: with plain file names for the model and its settings, and a script
    whose directory is an absolute path in normal form, the path checks of
    [validate_input_args] come down to one: the directory of the script
    exists and its path is shorter than 255 characters. *)
Theorem validate_input_args_plain_names (fs : filesystem) (script : string)
    (args : chunker_args) :
  Posixpath.isabs (cwd fs) = true ->
  absolute_normal (Posixpath.dirname script) ->
  kept (model_name args) -> kept (settings args) ->
  (validate_input_args fs script args
   = Ok (Posixpath.join (Posixpath.dirname script) (model_name args),
         Posixpath.join (Posixpath.dirname script) (settings args))
   <-> hyperparameters_ok args
       /\ String.length (Posixpath.dirname script) < 255
       /\ isdir fs (Posixpath.dirname script) = true).
Proof.
  intros Hcwd Hd Hm Hs.
  rewrite validate_input_args_iff.
  rewrite !(validate_parent_exists_name fs _ _ Hcwd Hd) by assumption.
  rewrite validate_existing_directory_eq, (abspath_fixed fs _ Hd).
  destruct (Nat.leb_spec 255 (String.length (Posixpath.dirname script)))
    as [Hlen|Hlen];
    destruct (isdir fs (Posixpath.dirname script)); cbn [bind is_Ok];
    split.
  all: try (intros (Hok & _ & _ & H1 & _); discriminate H1).
  all: try (intros (Hok & H1 & H2); first [lia | discriminate H2]).
  - intros (Hok & _). auto.
  - intros (Hok & _). auto.
Qed.

Lemma validate_input_args_plain_names_witness :
  validate_input_args fs_srv "/srv/chunker/train.py" default_args
  = Ok ("/srv/chunker/chunker", "/srv/chunker/chunker_settings").
Proof.
  assert (K1 : kept "chunker") by (repeat split; try discriminate).
  assert (K2 : kept "chunker_settings") by (repeat split; try discriminate).
  assert (D : absolute_normal (Posixpath.dirname "/srv/chunker/train.py"))
    by (split; reflexivity).
  apply (proj2 (validate_input_args_plain_names fs_srv "/srv/chunker/train.py"
                  default_args eq_refl D K1 K2)).
  unfold hyperparameters_ok, hyperparameter.
  repeat split; first [ cbn [int_value default_args sentence_len lstm_depth
                               lstm_hidden_size token_embedding_size
                               pos_embedding_size vocab_size char_hidden_size
                               max_char_word_length]; lia
                      | vm_compute; reflexivity
                      | vm_compute; lia ].
Defined.

(** ** Properties of [walk_directory] *)

Section WalkFacts.
Variable fs : filesystem.
Variable open_text : string -> opened.

Lemma yielded_app (a b : list event) :
  yielded (a ++ b) = (yielded a ++ yielded b)%list.
Proof.
  induction a as [|[line|f t] a IH]; simpl; [reflexivity | exact IH |].
  now rewrite IH.
Qed.

Lemma yielded_announced (files : list (string * string)) :
  yielded (flat_map announced files) = files.
Proof.
  induction files as [|[f t] files IH]; simpl; [reflexivity | now rewrite IH].
Qed.

(** One directory: the events are the announcements of an initial part of
    its visible files, followed by the line of a file that could not be
    decoded if that is what ended the loop. *)
Lemma read_files_events (dir_path : string) (filenames : list string) :
  forall events err,
    read_files fs open_text dir_path filenames = (events, err) ->
    exists done rest tail,
      map (fun filename =>
             (filename, text_of open_text (Posixpath.join dir_path filename)))
          (filter (visible fs dir_path) filenames)
      = (done ++ rest)%list
      /\ events = (flat_map announced done ++ tail)%list
      /\ (err = None -> rest = [] /\ tail = [])
      /\ (tail = [] \/ exists filename,
             tail = [Printed ("Reading " ++ filename)] /\ err <> None).
Proof.
  induction filenames as [|filename filenames IH]; intros events err.
  - intros E. inversion E; subst. exists [], [], []. simpl. auto.
  - cbn [read_files filter].
    change (isfile fs (Posixpath.join dir_path filename)
            && negb (Str.startswith filename "."))
      with (visible fs dir_path filename).
    destruct (visible fs dir_path filename); [|apply IH].
    cbn [map]. unfold text_of at 1.
    destruct (open_text (Posixpath.join dir_path filename)) as [e|e|t].
    + intros E. inversion E; subst.
      eexists [], _, []. split; [reflexivity|]. split; [reflexivity|].
      split; [discriminate | now left].
    + intros E. inversion E; subst.
      eexists [], _, [_]. split; [reflexivity|]. split; [reflexivity|].
      split; [discriminate|].
      right. eexists. split; [reflexivity | discriminate].
    + destruct (read_files fs open_text dir_path filenames)
        as [events' err'] eqn:E'.
      intros E. inversion E; subst.
      destruct (IH _ _ eq_refl) as (done & rest & tail & H1 & H2 & H3 & H4).
      exists ((filename, t) :: done), rest, tail.
      rewrite H1, H2. split; [reflexivity|]. split; [reflexivity|]. auto.
Qed.

Lemma walk_loop_events (walk : list (string * list string * list string)) :
  forall events err,
    walk_loop fs open_text walk = (events, err) ->
    exists done rest tail,
      visible_files fs open_text walk = (done ++ rest)%list
      /\ events = (flat_map announced done ++ tail)%list
      /\ (err = None -> rest = [] /\ tail = [])
      /\ (tail = [] \/ exists filename,
             tail = [Printed ("Reading " ++ filename)] /\ err <> None).
Proof.
  induction walk as [|[[dir_path dirnames] filenames] walk IH];
    intros events err; simpl.
  - intros E. inversion E; subst. exists [], [], []. simpl. auto.
  - destruct (read_files fs open_text dir_path filenames)
      as [events1 [e|]] eqn:E1.
    + intros E. inversion E; subst.
      destruct (read_files_events _ _ _ _ E1)
        as (done & rest & tail & H1 & H2 & H3 & H4).
      exists done, (rest ++ visible_files fs open_text walk)%list, tail.
      rewrite H1, <- app_assoc. repeat split; auto; discriminate.
    + destruct (walk_loop fs open_text walk) as [events2 err2] eqn:E2.
      intros E. inversion E; subst.
      destruct (read_files_events _ _ _ _ E1)
        as (done1 & rest1 & tail1 & H1 & H2 & H3 & _).
      destruct (H3 eq_refl) as [-> ->].
      destruct (IH _ _ eq_refl) as (done & rest & tail & G1 & G2 & G3 & G4).
      exists (done1 ++ done)%list, rest, tail.
      rewrite H1, G1, H2, G2, !app_nil_r, flat_map_app, <- !app_assoc.
      auto.
Qed.

Lemma visible_files_spec (walk : list (string * list string * list string))
    (filename doc_text : string) :
  In (filename, doc_text) (visible_files fs open_text walk) ->
  Str.startswith filename "." = false
  /\ exists dir_path dirnames filenames,
       In (dir_path, dirnames, filenames) walk
       /\ In filename filenames
       /\ isfile fs (Posixpath.join dir_path filename) = true.
Proof.
  unfold visible_files. rewrite in_flat_map.
  intros ([[dir_path dirnames] filenames] & Hin & Hf).
  apply in_map_iff in Hf as (f & Ef & Hf). inversion Ef; subst.
  apply filter_In in Hf as [Hf Hv]. unfold visible in Hv.
  apply andb_prop in Hv as [Hfile Hdot]. apply negb_true_iff in Hdot.
  split; [exact Hdot|]. eauto 6.
Qed.

End WalkFacts.


(** X14: [walk_directory] never yields a file whose name starts with a dot,
    whatever the name of its directory, and every name it yields is listed
    by [os.walk] in a directory where it names a regular file. *)
Theorem walk_directory_skips_hidden (fs : filesystem)
    (open_text : string -> opened)
    (os_walk : string -> list (string * list string * list string))
    (directory : string) (events : list event) (err : option io_error)
    (filename doc_text : string) :
  walk_directory fs open_text os_walk directory = (events, err) ->
  In (filename, doc_text) (yielded events) ->
  Str.startswith filename "." = false
  /\ exists dir_path dirnames filenames,
       In (dir_path, dirnames, filenames) (os_walk directory)
       /\ In filename filenames
       /\ isfile fs (Posixpath.join dir_path filename) = true.
Proof.
  unfold walk_directory. intros E Hin.
  destruct (walk_loop_events fs open_text _ _ _ E)
    as (done & rest & tail & H1 & H2 & _ & H4).
  apply (visible_files_spec fs open_text (os_walk directory)
           filename doc_text).
  rewrite H1. apply in_or_app. left.
  rewrite H2, yielded_app, yielded_announced in Hin.
  destruct H4 as [-> | (f & -> & _)]; simpl in Hin;
    now rewrite app_nil_r in Hin.
Qed.

(** X15: every pair [walk_directory] yields comes right after the line
    ["Reading <name>"] printed for it; the events are these announcements,
    followed by at most one more line, printed for a file that could not be
    decoded, and by nothing when the walk ends without an exception. *)
Theorem walk_directory_announces (fs : filesystem)
    (open_text : string -> opened)
    (os_walk : string -> list (string * list string * list string))
    (directory : string) (events : list event) (err : option io_error) :
  walk_directory fs open_text os_walk directory = (events, err) ->
  exists tail,
    events = (flat_map announced (yielded events) ++ tail)%list
    /\ (err = None -> tail = [])
    /\ (tail = [] \/ exists filename,
           tail = [Printed ("Reading " ++ filename)] /\ err <> None).
Proof.
  unfold walk_directory. intros E.
  destruct (walk_loop_events fs open_text _ _ _ E)
    as (done & rest & tail & H1 & H2 & H3 & H4).
  exists tail. split; [|split; [intros He; now apply H3 | exact H4]].
  rewrite H2 at 2. rewrite yielded_app, yielded_announced.
  replace (yielded tail) with (@nil (string * string))
    by (destruct H4 as [-> | (f & -> & _)]; reflexivity).
  now rewrite app_nil_r.
Qed.


Lemma walk_directory_skips_hidden_witness :
  Str.startswith "config" "." = false
  /\ exists dir_path dirnames filenames,
       In (dir_path, dirnames, filenames) (walk_example "docs")
       /\ In "config" filenames
       /\ isfile fs_srv (Posixpath.join dir_path "config") = true.
Proof.
  apply (walk_directory_skips_hidden fs_srv open_all walk_example "docs"
           (fst (walk_directory fs_srv open_all walk_example "docs")) None
           "config" "text of docs/.git/config").
  - reflexivity.
  - simpl. auto 10.
Defined.

Lemma walk_directory_announces_witness :
  exists tail,
    [Printed "Reading a.txt"; Yielded "a.txt" "text of docs/a.txt";
     Printed "Reading b.bin"]
    = (flat_map announced
         (yielded [Printed "Reading a.txt";
                   Yielded "a.txt" "text of docs/a.txt";
                   Printed "Reading b.bin"]) ++ tail)%list
    /\ (Some (UnicodeDecodeError "b.bin") = None -> tail = [])
    /\ (tail = [] \/ exists filename,
           tail = [Printed ("Reading " ++ filename)]
           /\ Some (UnicodeDecodeError "b.bin") <> None).
Proof.
  apply (walk_directory_announces fs_srv open_example walk_example "docs").
  reflexivity.
Defined.

(** ** Properties of [check] and [check_size] *)

Lemma names_append_l (a b n : string) : names b n -> names (a ++ b) n.
Proof.
  intros (before & after & ->). exists (a ++ before), after.
  now rewrite append_assoc.
Qed.

Lemma names_append_r (a b n : string) : names a n -> names (a ++ b) n.
Proof.
  intros (before & after & ->). exists before, (after ++ b).
  now rewrite !append_assoc.
Qed.

Lemma names_self (n : string) : names n n.
Proof. exists "", "". simpl. now rewrite append_nil_r. Qed.





(** X17: the action built by [check] stores the argument as it was given,
    not what the validator returned: after [check(validate_existing_directory)]
    the attribute holds the path as typed, although it is its absolute form
    that was validated and found to be a directory; the other attributes
    are untouched. *)
Theorem check_stores_argument (fs : filesystem) (dest : string)
    (ns ns' : namespace) (values : pyval) :
  check (validate_existing_directory fs) dest ns values = Ok ns' ->
  ns' dest = Some values
  /\ (forall attr, attr <> dest -> ns' attr = ns attr)
  /\ exists p, values = VStr p
               /\ validate_existing_directory fs values = Ok (abspath fs p)
               /\ isdir fs (abspath fs p) = true.
Proof.
  unfold check.
  destruct (validate_existing_directory fs values) as [d|e] eqn:E;
    [|discriminate].
  cbn [bind]. intros R. inversion R; subst ns'. clear R.
  unfold setattr. rewrite String.eqb_refl. split; [reflexivity|]. split.
  - intros attr Hattr. apply String.eqb_neq in Hattr. now rewrite Hattr.
  - destruct (validate_existing_directory_inv fs values d E)
      as (p & -> & -> & _ & Hdir).
    exists p. auto.
Qed.

Lemma check_stores_argument_witness :
  setattr (fun _ => None) "data" (VStr "data/../models") "data"
  = Some (VStr "data/../models")
  /\ validate_existing_directory fs_srv (VStr "data/../models")
     = Ok "/srv/models".
Proof.
  destruct (check_stores_argument fs_srv "data" (fun _ => None)
              (setattr (fun _ => None) "data" (VStr "data/../models"))
              (VStr "data/../models") eq_refl)
    as (H1 & _ & p & Ep & H2 & _).
  split; [exact H1|]. inversion Ep; subst p. exact H2.
Defined.

(** ** Further properties of [validate_proxy_path] *)

Section ProxyFacts.
Import Re.

Lemma all_ascii_complete (x : ascii) : List.In x all_ascii.
Proof.
  unfold all_ascii. rewrite <- (ascii_nat_embedding x).
  apply in_map, in_seq. pose proof (nat_ascii_bounded x). lia.
Qed.

(** A test that holds on the 256 characters holds on every character. *)
Lemma ascii_all (P : ascii -> bool) :
  forallb P all_ascii = true -> forall x, P x = true.
Proof.
  intros H x. rewrite forallb_forall in H. apply H, all_ascii_complete.
Qed.

Lemma lower_lower (x : ascii) : lower (lower x) = lower x.
Proof.
  apply Ascii.eqb_eq.
  apply (ascii_all (fun x => Ascii.eqb (lower (lower x)) (lower x))).
  vm_compute. reflexivity.
Qed.

Lemma upper_lower (x : ascii) : upper (lower x) = upper x.
Proof.
  apply Ascii.eqb_eq.
  apply (ascii_all (fun x => Ascii.eqb (upper (lower x)) (upper x))).
  vm_compute. reflexivity.
Qed.

Lemma lower_line_feed (x : ascii) :
  Ascii.eqb (lower x) "010" = Ascii.eqb x "010".
Proof.
  apply Bool.eqb_prop.
  apply (ascii_all (fun x => Bool.eqb (Ascii.eqb (lower x) "010")
                                      (Ascii.eqb x "010"))).
  vm_compute. reflexivity.
Qed.

Lemma char_matches_lower (c x : ascii) :
  char_matches true c (lower x) = char_matches true c x.
Proof. unfold char_matches. now rewrite lower_lower. Qed.

Lemma set_matches_lower (items : list item) (x : ascii) :
  set_matches true items (lower x) = set_matches true items x.
Proof. unfold set_matches. now rewrite lower_lower, upper_lower. Qed.

Lemma at_end_lower (s : string) : at_end (lower_str s) = at_end s.
Proof.
  destruct s as [|c [|d s]]; simpl; try reflexivity. apply lower_line_feed.
Qed.

Lemma lower_str_app (a b : string) :
  lower_str (a ++ b) = lower_str a ++ lower_str b.
Proof. induction a as [|x a IH]; simpl; [reflexivity | now rewrite IH]. Qed.

Lemma lower_str_idem (s : string) : lower_str (lower_str s) = lower_str s.
Proof.
  induction s as [|x s IH]; simpl; [reflexivity|].
  now rewrite lower_lower, IH.
Qed.

(** Matching is blind to the case of the subject, in both directions. *)
Lemma consumes_lower (ok : ascii -> bool) :
  (forall x, ok (lower x) = ok x) ->
  forall st st', consumes ok st st' -> consumes ok (low st) (low st').
Proof.
  intros Hok [n s] st' (c & rest & E & Hc & ->). simpl in E. subst s.
  exists (lower c), (lower_str rest). simpl. now rewrite Hok.
Qed.

Lemma consumes_lower_inv (ok : ascii -> bool) :
  (forall x, ok (lower x) = ok x) ->
  forall st st'',
    consumes ok (low st) st'' ->
    exists st', st'' = low st' /\ consumes ok st st'.
Proof.
  intros Hok [n s] st'' (c & rest & E & Hc & ->). simpl in E.
  destruct s as [|x s]; [discriminate|]. simpl in E. inversion E; subst.
  exists (S n, s). split; [reflexivity|].
  exists x, s. simpl. now rewrite <- Hok.
Qed.

Lemma iter_lower (R : state -> state -> Prop) (n : nat) :
  (forall st st', R st st' -> R (low st) (low st')) ->
  forall st st', iter R n st st' -> iter R n (low st) (low st').
Proof.
  intros HR. induction n as [|n IH]; intros st st'; simpl.
  - now intros ->.
  - intros (mid & Hmid & Hi). exists (low mid). auto.
Qed.

Lemma iter_lower_inv (R : state -> state -> Prop) (n : nat) :
  (forall st st'', R (low st) st'' -> exists st', st'' = low st' /\ R st st') ->
  forall st st'',
    iter R n (low st) st'' -> exists st', st'' = low st' /\ iter R n st st'.
Proof.
  intros HR. induction n as [|n IH]; intros st st''; simpl.
  - intros ->. eauto.
  - intros (mid & Hmid & Hi).
    destruct (HR _ _ Hmid) as (mid' & -> & Hmid').
    destruct (IH _ _ Hi) as (st' & -> & Hi'). eauto.
Qed.

Lemma spans_lower (r : regex) :
  forall st st', spans true r st st' -> spans true r (low st) (low st').
Proof.
  induction r as [| c | items | r1 IH1 r2 IH2 | r1 IH1 r2 IH2 | lo hi r IH | |];
    intros st st'; simpl.
  - now intros ->.
  - apply consumes_lower, char_matches_lower.
  - apply consumes_lower, set_matches_lower.
  - intros (mid & H1 & H2). exists (low mid). auto.
  - intros [H | H]; auto.
  - intros (n & Hn & Hi). exists n. split; [exact Hn|].
    now apply iter_lower.
  - now intros (E & ->).
  - intros (E & ->). split; [|reflexivity].
    destruct st as [n s]. simpl in *. now rewrite at_end_lower.
Qed.

Lemma spans_lower_inv (r : regex) :
  forall st st'',
    spans true r (low st) st'' ->
    exists st', st'' = low st' /\ spans true r st st'.
Proof.
  induction r as [| c | items | r1 IH1 r2 IH2 | r1 IH1 r2 IH2 | lo hi r IH | |];
    intros st st''; simpl.
  - intros ->. eauto.
  - apply consumes_lower_inv, char_matches_lower.
  - apply consumes_lower_inv, set_matches_lower.
  - intros (mid & H1 & H2).
    destruct (IH1 _ _ H1) as (mid' & -> & H1').
    destruct (IH2 _ _ H2) as (st' & -> & H2'). eauto.
  - intros [H | H].
    + destruct (IH1 _ _ H) as (st' & -> & H'). eauto.
    + destruct (IH2 _ _ H) as (st' & -> & H'). eauto.
  - intros (n & Hn & Hi).
    destruct (iter_lower_inv _ n IH _ _ Hi) as (st' & -> & Hi'). eauto.
  - intros (E & ->). exists st. destruct st; simpl in *. auto.
  - intros (E & ->). exists st. destruct st as [n s]; simpl in *.
    rewrite at_end_lower in E. auto.
Qed.

Lemma matches_lower (r : regex) (s : string) :
  matches true r (lower_str s) = matches true r s.
Proof.
  apply Bool.eq_true_iff_eq. rewrite !matches_spans. split.
  - intros (st'' & H).
    destruct (spans_lower_inv r (0, s) st'' H) as (st' & _ & H'). eauto.
  - intros (st' & H). exists (low st'). exact (spans_lower r (0, s) st' H).
Qed.

Lemma proxy_ok_matches (s : string) :
  proxy_ok s <-> matches true proxy_validation_regex s = true.
Proof.
  unfold proxy_ok, validate_proxy_path.
  destruct (matches true proxy_validation_regex s); simpl;
    split; intros H; try reflexivity; discriminate.
Qed.

End ProxyFacts.

(** X18: [validate_proxy_path] ignores the case of letters: two strings that
    differ only by the case of their letters are both accepted or both
    refused. *)
Theorem validate_proxy_path_ignores_case (s s' : string) :
  lower_str s = lower_str s' ->
  (proxy_ok s <-> proxy_ok s').
Proof.
  intros E. rewrite !proxy_ok_matches.
  now rewrite <- (matches_lower _ s), <- (matches_lower _ s'), E.
Qed.

Lemma validate_proxy_path_ignores_case_witness :
  proxy_ok "HTTP://Proxy.Example.COM:911".
Proof.
  apply (proj1 (validate_proxy_path_ignores_case
                  "http://proxy.example.com:911"
                  "HTTP://Proxy.Example.COM:911" eq_refl)).
  vm_compute. reflexivity.
Defined.

Section ProxyShape.
Import Re.

Lemma no_space_app (a b : string) :
  no_space (a ++ b) = no_space a && no_space b.
Proof.
  induction a as [|x a IH]; simpl; [reflexivity|].
  now rewrite IH, andb_assoc.
Qed.

Lemma append_cancel_r (a b w : string) : a ++ w = b ++ w -> a = b.
Proof.
  revert b. induction a as [|x a IH]; intros [|y b] E; simpl in E.
  - reflexivity.
  - apply (f_equal String.length) in E. simpl in E.
    rewrite length_append in E. lia.
  - apply (f_equal String.length) in E. simpl in E.
    rewrite length_append in E. lia.
  - inversion E; subst. f_equal. now apply IH.
Qed.

Lemma at_end_inv (t : string) : at_end t = true -> t = "" \/ t = line_feed.
Proof.
  destruct t as [|c [|d t]]; simpl; auto; [|discriminate].
  intros H. apply Ascii.eqb_eq in H. subst. now right.
Qed.

Lemma iter_map (f : state -> state) (R : state -> state -> Prop) (n : nat) :
  (forall st st', R st st' -> R (f st) (f st')) ->
  forall st st', iter R n st st' -> iter R n (f st) (f st').
Proof.
  intros HR. induction n as [|n IH]; intros st st'; simpl.
  - now intros ->.
  - intros (mid & Hmid & Hi). exists (f mid). auto.
Qed.

Lemma iter_consumed (P : Prop) (R : state -> state -> Prop) (n : nat) :
  consumed P R -> consumed P (iter R n).
Proof.
  intros HR. induction n as [|n IH]; intros st st'; simpl.
  - intros ->. exists "". simpl. auto.
  - intros (mid & Hmid & Hi).
    destruct (HR _ _ Hmid) as (u1 & E1 & L1 & S1).
    destruct (IH _ _ Hi) as (u2 & E2 & L2 & S2).
    exists (u1 ++ u2). rewrite E1, E2, L2, L1, length_append, append_assoc.
    repeat split; [lia|]. intros HP. rewrite no_space_app, S1, S2; auto.
Qed.

Lemma consumes_consumed (P : Prop) (ok : ascii -> bool) :
  (P -> forall x, ok x = true -> is_space x = false) ->
  consumed P (consumes ok).
Proof.
  intros Hok st st' (c & rest & E & Hc & ->). exists (String c "").
  rewrite E. simpl. repeat split; [lia|].
  intros HP. now rewrite (Hok HP c Hc).
Qed.

Lemma atom_no_space (ok : ascii -> bool) :
  forallb (fun x => implb (ok x) (negb (is_space x))) all_ascii = true ->
  forall x, ok x = true -> is_space x = false.
Proof.
  intros H x Hx.
  pose proof (ascii_all _ H x) as Hi. cbv beta in Hi. rewrite Hx in Hi.
  simpl in Hi. now apply negb_true_iff.
Qed.

Lemma spans_consumed (r : regex) :
  consumed (space_free r = true) (spans true r).
Proof.
  induction r as [| c | items | r1 IH1 r2 IH2 | r1 IH1 r2 IH2 | lo hi r IH | |];
    cbn [spans space_free].
  - intros st st' ->. exists "". simpl. auto.
  - apply consumes_consumed. intros H. now apply atom_no_space.
  - apply consumes_consumed. intros H. now apply atom_no_space.
  - intros st st' (mid & H1 & H2).
    destruct (IH1 _ _ H1) as (u1 & E1 & L1 & S1).
    destruct (IH2 _ _ H2) as (u2 & E2 & L2 & S2).
    exists (u1 ++ u2). rewrite E1, E2, L2, L1, length_append, append_assoc.
    repeat split; [lia|]. intros HP. apply andb_prop in HP as [P1 P2].
    rewrite no_space_app, S1, S2; auto.
  - intros st st' [H | H].
    + destruct (IH1 _ _ H) as (u & E & L & S). exists u.
      repeat split; auto. intros HP. apply andb_prop in HP as [P1 _]. auto.
    + destruct (IH2 _ _ H) as (u & E & L & S). exists u.
      repeat split; auto. intros HP. apply andb_prop in HP as [_ P2]. auto.
  - intros st st' (n & _ & Hi). exact (iter_consumed _ _ n IH _ _ Hi).
  - intros st st' (_ & ->). exists "". simpl. auto.
  - intros st st' (_ & ->). exists "". simpl. auto.
Qed.

Lemma spans_end_last (r : regex) :
  end_last r = true ->
  forall st st', spans true r st st' -> at_end (snd st') = true.
Proof.
  induction r as [| c | items | r1 IH1 r2 IH2 | r1 IH1 r2 IH2 | lo hi r IH | |];
    cbn [spans end_last]; try discriminate.
  - intros H st st' (mid & _ & H2). apply andb_prop in H as [_ H].
    exact (IH2 H _ _ H2).
  - now intros _ st st' (E & ->).
Qed.

(** A pattern without [$] does not look at what follows its match. *)
Lemma spans_extend (w : string) (r : regex) :
  end_free r = true ->
  forall st st',
    spans true r st st' ->
    spans true r (fst st, snd st ++ w) (fst st', snd st' ++ w).
Proof.
  induction r as [| c | items | r1 IH1 r2 IH2 | r1 IH1 r2 IH2 | lo hi r IH | |];
    cbn [spans end_free]; try discriminate.
  - now intros _ st st' ->.
  - intros _ st st' (x & rest & E & Hx & ->). exists x, (rest ++ w).
    simpl. now rewrite E.
  - intros _ st st' (x & rest & E & Hx & ->). exists x, (rest ++ w).
    simpl. now rewrite E.
  - intros H st st' (mid & H1 & H2). apply andb_prop in H as [F1 F2].
    exists (fst mid, snd mid ++ w). auto.
  - intros H st st' [H1 | H2]; apply andb_prop in H as [F1 F2]; auto.
  - intros H st st' (n & Hn & Hi). exists n. split; [exact Hn|].
    exact (iter_map (fun st => (fst st, snd st ++ w)) _ n (IH H) _ _ Hi).
  - now intros _ st st' (E & ->).
Qed.

Lemma spans_shorten (w : string) (r : regex) :
  end_free r = true ->
  forall n s m t,
    spans true r (n, s ++ w) (m, t ++ w) -> spans true r (n, s) (m, t).
Proof.
  induction r as [| c | items | r1 IH1 r2 IH2 | r1 IH1 r2 IH2 | lo hi r IH | |];
    cbn [spans end_free]; try discriminate.
  - intros _ n s m t E. inversion E as [[En Es]].
    now rewrite (append_cancel_r _ _ _ Es).
  - intros _ n s m t (x & rest & E & Hx & E'). simpl in E, E'.
    inversion E'; subst. exists x, t. simpl. split; [|auto].
    apply (append_cancel_r _ (String x t) w). exact E.
  - intros _ n s m t (x & rest & E & Hx & E'). simpl in E, E'.
    inversion E'; subst. exists x, t. simpl. split; [|auto].
    apply (append_cancel_r _ (String x t) w). exact E.
  - intros H n s m t ([n' x] & H1 & H2). apply andb_prop in H as [F1 F2].
    destruct (spans_consumed r2 _ _ H2) as (u & E & _). simpl in E. subst x.
    rewrite <- append_assoc in H1, H2.
    exists (n', u ++ t). split; [now apply IH1 | now apply IH2].
  - intros H n s m t [H1 | H2]; apply andb_prop in H as [F1 F2]; auto.
  - intros H n s m t (k & Hk & Hi). exists k. split; [exact Hk|].
    clear Hk. revert n s Hi. induction k as [|k IHk]; intros n s; simpl.
    + intros E. inversion E as [[En Es]].
      now rewrite (append_cancel_r _ _ _ Es).
    + intros ([n' x] & H1 & H2).
      destruct (iter_consumed _ _ k (spans_consumed r) _ _ H2) as (u & E & _).
      simpl in E. subst x. rewrite <- append_assoc in H1, H2.
      exists (n', u ++ t). split; [now apply IH | now apply IHk].
  - intros _ n s m t (En & E). inversion E as [[En' Es]]. simpl in *.
    split; [exact En|]. now rewrite (append_cancel_r _ _ _ Es).
Qed.

(** A pattern that ends with [$] and matches up to the end of the subject
    also matches when a line feed follows, and conversely. *)
Lemma spans_line_feed (r : regex) :
  end_last r = true ->
  forall n s m,
    spans true r (n, s) (m, "") -> spans true r (n, s ++ line_feed) (m, line_feed).
Proof.
  induction r as [| c | items | r1 IH1 r2 IH2 | r1 IH1 r2 IH2 | lo hi r IH | |];
    cbn [spans end_last]; try discriminate.
  - intros H n s m ([n' x] & H1 & H2). apply andb_prop in H as [F1 F2].
    exists (n', x ++ line_feed). split.
    + exact (spans_extend line_feed r1 F1 _ _ H1).
    + now apply IH2.
  - intros _ n s m (E & E'). inversion E'; subst. simpl. auto.
Qed.

Lemma spans_line_feed_inv (r : regex) :
  end_last r = true ->
  forall n s m,
    spans true r (n, s ++ line_feed) (m, line_feed) -> spans true r (n, s) (m, "").
Proof.
  induction r as [| c | items | r1 IH1 r2 IH2 | r1 IH1 r2 IH2 | lo hi r IH | |];
    cbn [spans end_last]; try discriminate.
  - intros H n s m ([n' x] & H1 & H2). apply andb_prop in H as [F1 F2].
    destruct (spans_consumed r2 _ _ H2) as (u & E & _). simpl in E. subst x.
    exists (n', u). split.
    + exact (spans_shorten line_feed r1 F1 _ _ _ _ H1).
    + now apply IH2.
  - intros _ n s m (_ & E'). inversion E' as [[En Es]].
    assert (Hs : s = "")
      by (apply (append_cancel_r s "" line_feed); symmetry; exact Es).
    subst s. split; reflexivity.
Qed.

Lemma no_space_endswith (s : string) :
  no_space s = true -> Str.endswith s "010" = false.
Proof.
  induction s as [|x s IH]; [reflexivity|]. simpl. intros H.
  apply andb_prop in H as [Hx Hs]. destruct s as [|y s]; [|now apply IH].
  destruct (Ascii.eqb_spec x "010") as [->|]; [discriminate | reflexivity].
Qed.

(** The shape of a string the pattern of [validate_proxy_path] matches. *)
Lemma proxy_ok_shape (s : string) :
  proxy_ok s ->
  exists m t u,
    spans true proxy_validation_regex (0, s) (m, t)
    /\ s = u ++ t /\ no_space u = true /\ (t = "" \/ t = line_feed).
Proof.
  rewrite proxy_ok_matches, matches_spans. intros ([m t] & H).
  destruct (spans_consumed proxy_validation_regex (0, s) (m, t) H)
    as (u & E & _ & S).
  cbn [fst snd] in E.
  exists m, t, u. split; [exact H|]. split; [exact E|]. split.
  - apply S. vm_compute. reflexivity.
  - apply at_end_inv.
    exact (spans_end_last proxy_validation_regex eq_refl _ _ H).
Qed.

End ProxyShape.

(** X19: a string [validate_proxy_path] accepts contains no white space,
    except that it may end with one line feed. *)
Theorem validate_proxy_path_no_space (s : string) :
  proxy_ok s ->
  exists u, (s = u \/ s = u ++ line_feed) /\ no_space u = true.
Proof.
  intros H. destruct (proxy_ok_shape s H) as (m & t & u & _ & E & S & [-> | ->]).
  - exists u. rewrite append_nil_r in E. auto.
  - exists u. auto.
Qed.

Lemma validate_proxy_path_no_space_witness :
  exists u,
    ("http://localhost:8080/path" = u
     \/ "http://localhost:8080/path" = u ++ line_feed)
    /\ no_space u = true.
Proof.
  apply (validate_proxy_path_no_space "http://localhost:8080/path").
  vm_compute. reflexivity.
Defined.

(** X20: [validate_proxy_path] lets one final line feed through: a string
    followed by a line feed is accepted exactly when the string is accepted
    and does not itself end with a line feed. *)
Theorem validate_proxy_path_final_line_feed (s : string) :
  proxy_ok (s ++ line_feed) <-> proxy_ok s /\ Str.endswith s "010" = false.
Proof.
  split.
  - intros H.
    destruct (proxy_ok_shape _ H) as (m & t & u & Hs & E & S & [-> | ->]).
    + rewrite append_nil_r in E. rewrite <- E, no_space_app in S.
      apply andb_prop in S as [_ S]. discriminate.
    + apply append_cancel_r in E. subst u. split.
      * apply proxy_ok_matches, matches_spans. exists (m, "").
        exact (spans_line_feed_inv proxy_validation_regex eq_refl _ _ _ Hs).
      * now apply no_space_endswith.
  - intros [H Hend].
    destruct (proxy_ok_shape _ H) as (m & t & u & Hs & E & S & [-> | ->]).
    + apply proxy_ok_matches, matches_spans. exists (m, line_feed).
      exact (spans_line_feed proxy_validation_regex eq_refl _ _ _ Hs).
    + rewrite E, endswith_app in Hend by discriminate. discriminate.
Qed.

Lemma validate_proxy_path_final_line_feed_witness :
  proxy_ok ("http://localhost:8080" ++ line_feed).
Proof.
  apply (proj2 (validate_proxy_path_final_line_feed "http://localhost:8080")).
  split; vm_compute; reflexivity.
Defined.

Section ProxyScheme.
Import Re.

Lemma char_matches_inv (c x : ascii) :
  char_matches true c x = true -> lower x = lower c.
Proof. unfold char_matches. apply Ascii.eqb_eq. Qed.

(** A literal matches its own text, up to the case of letters. *)
Lemma lit_spans (w : string) :
  forall n s st',
    spans true (Lit w) (n, s) st' ->
    exists u t,
      s = u ++ t /\ lower_str u = lower_str w
      /\ st' = (n + String.length w, t).
Proof.
  induction w as [|c w IH]; intros n s st'.
  - simpl. intros ->. exists "", s. now rewrite Nat.add_0_r.
  - destruct w as [|d w].
    + simpl. intros (x & rest & E & Hx & ->). simpl in E. subst s.
      exists (String x ""), rest. simpl.
      rewrite (char_matches_inv _ _ Hx), Nat.add_1_r. auto.
    + change (Lit (String c (String d w)))
        with (Cat (Char c) (Lit (String d w))).
      cbn [spans]. intros (mid & (x & rest & E & Hx & ->) & H2).
      simpl in E. subst s.
      destruct (IH _ _ _ H2) as (u & t & -> & Hu & ->).
      exists (String x u), t.
      change (lower_str (String x u)) with (String (lower x) (lower_str u)).
      rewrite Hu, (char_matches_inv _ _ Hx).
      repeat split. f_equal. simpl. lia.
Qed.

Lemma opt_char_spans (c : ascii) (n : nat) (s : string) (st' : state) :
  spans true (Opt (Char c)) (n, s) st' ->
  st' = (n, s)
  \/ exists x t, s = String x t /\ lower x = lower c /\ st' = (S n, t).
Proof.
  unfold Opt. cbn [spans]. intros (k & [_ Hk] & Hi).
  destruct k as [|[|k]]; [| |simpl in Hk; lia].
  - left. exact Hi.
  - right. simpl in Hi. destruct Hi as (mid & (x & rest & E & Hx & ->) & ->).
    simpl in E. exists x, rest. split; [exact E|].
    split; [now apply char_matches_inv | reflexivity].
Qed.

Lemma proxy_ok_scheme (s : string) :
  proxy_ok s ->
  exists scheme rest,
    List.In scheme ["http"; "https"; "ftp"; "ftps"]
    /\ lower_str s = scheme ++ "://" ++ rest.
Proof.
  rewrite proxy_ok_matches, matches_spans. intros (st' & H).
  destruct H as (mid1 & (_ & ->) & mid2 & Hscheme & mid3 & Hopt & mid4
                 & Hlit & _).
  assert (Hs : exists u t, s = u ++ t
                           /\ (lower_str u = "http" \/ lower_str u = "ftp")
                           /\ mid2 = (String.length u, t)).
  { destruct Hscheme as [Hs | Hs].
    - destruct (lit_spans "http" _ _ _ Hs) as (u & t & E & Hu & ->).
      exists u, t. split; [exact E|]. split; [now left|].
      apply (f_equal String.length) in Hu.
      assert (L : forall a, String.length (lower_str a) = String.length a)
        by (induction a; simpl; auto).
      rewrite L in Hu. rewrite Hu. reflexivity.
    - destruct (lit_spans "ftp" _ _ _ Hs) as (u & t & E & Hu & ->).
      exists u, t. split; [exact E|]. split; [now right|].
      apply (f_equal String.length) in Hu.
      assert (L : forall a, String.length (lower_str a) = String.length a)
        by (induction a; simpl; auto).
      rewrite L in Hu. rewrite Hu. reflexivity. }
  destruct Hs as (u & t & -> & Hu & ->).
  rewrite lower_str_app.
  destruct (opt_char_spans _ _ _ _ Hopt) as [-> | (x & t' & -> & Hx & ->)].
  - destruct (lit_spans "://" _ _ _ Hlit) as (v & t2 & -> & Hv & _).
    rewrite lower_str_app, Hv.
    destruct Hu as [-> | ->]; [exists "http" | exists "ftp"];
      exists (lower_str t2); (split; [simpl; tauto | reflexivity]).
  - destruct (lit_spans "://" _ _ _ Hlit) as (v & t2 & -> & Hv & _).
    change (lower_str (String x (v ++ t2)))
      with (String (lower x) (lower_str (v ++ t2))).
    rewrite lower_str_app, Hv, Hx.
    destruct Hu as [-> | ->]; [exists "https" | exists "ftps"];
      exists (lower_str t2); (split; [simpl; tauto | reflexivity]).
Qed.

End ProxyScheme.

(** X21: a string [validate_proxy_path] accepts starts, case ignored, with
    one of the four schemes [http], [https], [ftp] and [ftps] followed by
    [://]. *)
Theorem validate_proxy_path_scheme (s : string) :
  proxy_ok s ->
  exists scheme rest,
    In scheme ["http"; "https"; "ftp"; "ftps"]
    /\ lower_str s = scheme ++ "://" ++ rest.
Proof. apply proxy_ok_scheme. Qed.

Lemma validate_proxy_path_scheme_witness :
  exists scheme rest,
    In scheme ["http"; "https"; "ftp"; "ftps"]
    /\ lower_str "FTPS://files.example.org:21/pub" = scheme ++ "://" ++ rest.
Proof.
  apply (validate_proxy_path_scheme "FTPS://files.example.org:21/pub").
  vm_compute. reflexivity.
Defined.
